(** * ContForce: the continuity restraint of the OpenMM plugin

    A shallow embedding of [ContForce] (openmmapi/include/ContForce.h and
    openmmapi/src/ContForce.cpp): the bond table with its add / get / set
    operations, followed by a model of the compiled context and of the
    reference evaluation kernel.

    Conventions.
    - A C++ [int] is a [Z]; where the code narrows a [size_t] to [int]
      the wrap-around is written out ([to_int]).
    - A C++ [double] is a real number ([R]).  The bond table only stores
      and copies these values; the kernel computes with them.
    - A method that may throw returns a [result]; a non-const method also
      returns the object as the call leaves it. *)

From Stdlib Require Import ZArith List Reals Lra Lia.
From stdpp Require Import base list.
Import ListNotations.

#[local] Open Scope Z_scope.

(** ** Machine integers *)

Definition INT_MAX : Z := 2147483647.

(** Conversion of an unsigned size to [int] (modular, as C++20 fixes it). *)
Definition to_int (z : Z) : Z := (z + 2147483648) mod 4294967296 - 2147483648.

(** ** Exceptions *)

(** Every error is an [OpenMM::OpenMMException]; the constructor records
    which condition raised it. *)
Inductive OpenMMException : Type :=
  | IndexOutOfRange      (* "Index out of range" *)
  | InvalidArgument
  | StructuralChange     (* the number of bonds has changed *)
  | DegenerateGeometry.

Inductive result (A : Type) : Type :=
  | Ok (a : A)
  | Throw (e : OpenMMException).
Arguments Ok {A} a.
Arguments Throw {A} e.

#[global] Instance result_ret : MRet result := fun A a => Ok a.
#[global] Instance result_bind : MBind result :=
  fun A B f r => match r with Ok a => f a | Throw e => Throw e end.

(** A method of an object of type [S]: the outcome and the object after
    the call. *)
Definition method (S A : Type) : Type := S -> result A * S.

#[global] Instance method_ret {S} : MRet (method S) :=
  fun A a s => (Ok a, s).
#[global] Instance method_bind {S} : MBind (method S) :=
  fun A B f m s =>
    match m s with
    | (Ok a, s') => f a s'
    | (Throw e, s') => (Throw e, s')
    end.
Definition get {S} : method S S := fun s => (Ok s, s).
Definition modify {S} (f : S -> S) : method S unit := fun s => (Ok tt, f s).

(** ** The bond table *)

(** [ContForce::BondInfo]. *)
Module BondInfo.

Record t : Type := mk {
  idxs : list Z;
  npart : Z;
  length : R;
  k : R
}.

(** The default constructor [BondInfo()]. *)
Definition default : t := mk [] 0 0%R 0%R.

(** Assignment to one data member. *)
Definition set_idxs (v : list Z) (b : t) : t := mk v (npart b) (length b) (k b).
Definition set_npart (v : Z) (b : t) : t := mk (idxs b) v (length b) (k b).
Definition set_length (v : R) (b : t) : t := mk (idxs b) (npart b) v (k b).
Definition set_k (v : R) (b : t) : t := mk (idxs b) (npart b) (length b) v.

End BondInfo.

#[global] Instance BondInfo_inhabited : Inhabited BondInfo.t :=
  populate BondInfo.default.

(** [class ContForce]: its only data member is [std::vector<BondInfo> bonds]. *)
Record ContForce : Type := mkContForce { bonds : list BondInfo.t }.

(** [ContForce::ContForce()]. *)
Definition new_ContForce : ContForce := mkContForce [].

(** [vector.size()] narrowed to [int]. *)
Definition int_size {A} (v : list A) : Z := to_int (Z.of_nat (length v)).

(** [bonds[index]] for an [int] index. *)
Definition at_index (v : list BondInfo.t) (index : Z) : BondInfo.t :=
  v !!! Z.to_nat index.

(** [int getNumBonds() const { return bonds.size(); }] *)
Definition getNumBonds (f : ContForce) : Z := int_size (bonds f).

(** Modelled from the spec: the macro [ASSERT_VALID_INDEX] of OpenMM's
    AssertionUtilities.h, which is not among the sources.  It fails with
    an out-of-range error if the index is not less than [size()]; as
    OpenMM defines it, a negative index fails as well:
    [if (index < 0 || index >= (int) vector.size()) throw ...]. *)
Definition ASSERT_VALID_INDEX {A} (index : Z) (v : list A) : result unit :=
  if (index <? 0) || (index >=? int_size v)
  then Throw IndexOutOfRange
  else Ok tt.

(** [int ContForce::addBond(idxs, npart, length, k)]:
    [bonds.push_back(BondInfo(idxs, npart, length, k)); return bonds.size()-1;] *)
Definition addBond (idxs : list Z) (npart : Z) (length k : R) : method ContForce Z :=
  modify (fun f => mkContForce (bonds f ++ [BondInfo.mk idxs npart length k])) ;;
  f ← get ;
  mret (to_int (Z.of_nat (List.length (bonds f)) - 1)).

(** [void ContForce::getBondParameters(index, idxs&, npart&, length&, k&) const]:
    the four output references are returned as a tuple. *)
Definition getBondParameters (index : Z) (f : ContForce)
  : result (list Z * Z * R * R) :=
  match ASSERT_VALID_INDEX index (bonds f) with
  | Throw e => Throw e
  | Ok _ =>
      let b := at_index (bonds f) index in
      Ok (BondInfo.idxs b, BondInfo.npart b, BondInfo.length b, BondInfo.k b)
  end.

(** [bonds[index].field = v]. *)
Definition assign (index : Z) (upd : BondInfo.t -> BondInfo.t) : method ContForce unit :=
  modify (fun f => mkContForce (alter upd (Z.to_nat index) (bonds f))).

(** [void ContForce::setBondParameters(index, idxs, npart, length, k)]. *)
Definition setBondParameters (index : Z) (idxs : list Z) (npart : Z) (length k : R)
  : method ContForce unit :=
  fun f =>
    match ASSERT_VALID_INDEX index (bonds f) with
    | Throw e => (Throw e, f)
    | Ok _ =>
        (assign index (BondInfo.set_idxs idxs) ;;
         assign index (BondInfo.set_npart npart) ;;
         assign index (BondInfo.set_length length) ;;
         assign index (BondInfo.set_k k)) f
    end.

(** [bool usesPeriodicBoundaryConditions() const { return false; }] *)
Definition usesPeriodicBoundaryConditions (f : ContForce) : bool := false.

(** A sequence of [addBond] calls, collecting the returned indices. *)
Fixpoint addBonds (calls : list (list Z * Z * R * R)) : method ContForce (list Z) :=
  match calls with
  | [] => mret []
  | (idxs, npart, length, k) :: rest =>
      i ← addBond idxs npart length k ;
      js ← addBonds rest ;
      mret (i :: js)
  end.

(** The entry that [addBond] constructs from its arguments:
    [BondInfo(idxs, npart, length, k)]. *)
Definition bond_of_call (c : list Z * Z * R * R) : BondInfo.t :=
  let '(idxs, npart, length, k) := c in BondInfo.mk idxs npart length k.

(** A call of one of the two methods that write to the bond table. *)
Inductive table_call : Type :=
  | CallAddBond (idxs : list Z) (npart : Z) (length k : R)
  | CallSetBondParameters (index : Z) (idxs : list Z) (npart : Z) (length k : R).

(** The object after one call, whether the call returned or threw. *)
Definition after_call (f : ContForce) (op : table_call) : ContForce :=
  match op with
  | CallAddBond idxs npart length k => snd (addBond idxs npart length k f)
  | CallSetBondParameters index idxs npart length k =>
      snd (setBondParameters index idxs npart length k f)
  end.

(** The object after a sequence of calls. *)
Definition after_calls (ops : list table_call) (f : ContForce) : ContForce :=
  fold_left after_call ops f.

(** The number of [addBond] calls in a sequence. *)
Fixpoint count_adds (ops : list table_call) : nat :=
  match ops with
  | [] => 0
  | CallAddBond _ _ _ _ :: ops' => S (count_adds ops')
  | CallSetBondParameters _ _ _ _ _ :: ops' => count_adds ops'
  end.

(** The call is a [setBondParameters] at index [j]. *)
Definition writes_index (j : Z) (op : table_call) : Prop :=
  match op with
  | CallAddBond _ _ _ _ => False
  | CallSetBondParameters index _ _ _ _ => index = j
  end.

(** ** Three-dimensional vectors ([OpenMM::Vec3]) *)

#[local] Open Scope R_scope.

Record Vec3 : Type := mkVec3 { vx : R; vy : R; vz : R }.

Definition vzero : Vec3 := mkVec3 0 0 0.
Definition vadd (a b : Vec3) : Vec3 := mkVec3 (vx a + vx b) (vy a + vy b) (vz a + vz b).
Definition vsub (a b : Vec3) : Vec3 := mkVec3 (vx a - vx b) (vy a - vy b) (vz a - vz b).
Definition vscale (c : R) (a : Vec3) : Vec3 := mkVec3 (c * vx a) (c * vy a) (c * vz a).
Definition vdot (a b : Vec3) : R := vx a * vx b + vy a * vy b + vz a * vz b.
Definition vnorm (a : Vec3) : R := sqrt (vdot a a).

#[global] Instance R_inhabited : Inhabited R := populate 0.
#[global] Instance Vec3_inhabited : Inhabited Vec3 := populate vzero.

(** ** The compiled restraint: context bridge and kernel

    ContForceImpl and the reference kernel are not among the sources; the
    definitions of this part follow sections 3, 4.3, 4.4 and 7 of the
    specification. *)

(** Modelled from the spec: the state of the reference kernel, which is
    missing from the sources.  The topology snapshot holds each bond's
    [particles] and [count]; the parameter snapshot holds each bond's
    [length] and [stiffness]. *)
Record RestraintKernel : Type := mkKernel {
  topology : list (list Z * Z);
  parameters : list (R * R)
}.

Definition topology_of (b : BondInfo.t) : list Z * Z :=
  (BondInfo.idxs b, BondInfo.npart b).
Definition parameters_of (b : BondInfo.t) : R * R :=
  (BondInfo.length b, BondInfo.k b).

(** Modelled from the spec: the validation that the missing kernel runs
    on each bond when a context is created: [count] equals the length of
    the particle list and every particle index lies in
    [[0, numSystemParticles)]. *)
Definition valid_bond (numParticles : Z) (b : BondInfo.t) : bool :=
  (BondInfo.npart b =? Z.of_nat (length (BondInfo.idxs b)))%Z
  && forallb (fun p => (0 <=? p)%Z && (p <? numParticles)%Z) (BondInfo.idxs b).

(** Modelled from the spec: the missing kernel's [initialize(system, force)]
    (the compile step): the whole bond table is validated and copied into
    the two snapshots; one invalid bond fails the whole call. *)
Definition initialize (numParticles : Z) (f : ContForce) : result RestraintKernel :=
  if forallb (valid_bond numParticles) (bonds f)
  then Ok (mkKernel (map topology_of (bonds f)) (map parameters_of (bonds f)))
  else Throw InvalidArgument.

(** Modelled from the spec: the missing kernel's
    [copyParametersToContext(context, force)] (synchronization): the bond
    count is checked against the topology snapshot, then [length] and
    [stiffness] of every bond are copied; particle lists are not compared. *)
Definition copyParametersToContext (f : ContForce) : method RestraintKernel unit :=
  fun ker =>
    if Nat.eqb (length (bonds f)) (length (topology ker))
    then (Ok tt, mkKernel (topology ker) (map parameters_of (bonds f)))
    else (Throw StructuralChange, ker).

(** A [for] loop over the elements of [l], threading the state. *)
Fixpoint for_each {S A} (l : list A) (body : A -> method S unit) : method S unit :=
  match l with
  | [] => mret tt
  | x :: l' => body x ;; for_each l' body
  end.

(** The accumulators of one evaluation: the running energy and the
    per-particle force buffer of the host engine. *)
Definition accum : Type := R * list Vec3.

(** Modelled from the spec: one consecutive pair [(p1, p2)] of a chain in
    the missing kernel's [execute].  With [d = pos[p2] - pos[p1]],
    [r = |d|] and [dr = r - L], the energy grows by [k * dr^2] and the
    negative gradient [(2 * k * dr / r) * d] is added to the force on
    [p1] and subtracted from the force on [p2]; [r = 0] is a failure. *)
Definition pair_step (pos : list Vec3) (L k : R) (p1 p2 : Z) : method accum unit :=
  fun '(energy, force) =>
    let d := vsub (pos !!! Z.to_nat p2) (pos !!! Z.to_nat p1) in
    let r := vnorm d in
    if Req_dec_T r 0 then (Throw DegenerateGeometry, (energy, force))
    else
      let dr := r - L in
      let dEdR := 2 * k * dr / r in
      (Ok tt,
       (energy + k * dr * dr,
        alter (fun v => vsub v (vscale dEdR d)) (Z.to_nat p2)
          (alter (fun v => vadd v (vscale dEdR d)) (Z.to_nat p1) force))).

(** Modelled from the spec: the loop of the missing kernel over the
    consecutive pairs [(p[i], p[i+1])], [i] in [[0, count-2]], of one bond. *)
Definition bond_step (pos : list Vec3) (top : list Z * Z) (par : R * R)
  : method accum unit :=
  let '(p, count) := top in
  let '(L, k) := par in
  for_each (seq 0 (Z.to_nat (count - 1)))
    (fun i => pair_step pos L k (p !!! i) (p !!! S i)).

(** Modelled from the spec: the loop of the missing kernel over all bonds. *)
Definition kernel_loop (ker : RestraintKernel) (pos : list Vec3) : method accum unit :=
  for_each (seq 0 (length (topology ker)))
    (fun b => bond_step pos (topology ker !!! b) (parameters ker !!! b)).

(** Modelled from the spec: the missing kernel's [execute]: the energy and
    the forces of one evaluation, the host engine's force buffer starting
    at zero. *)
Definition execute (ker : RestraintKernel) (pos : list Vec3) : result (R * list Vec3) :=
  match kernel_loop ker pos (0, replicate (length pos) vzero) with
  | (Ok _, acc) => Ok acc
  | (Throw e, _) => Throw e
  end.

(** A context of the host engine, reduced to what this force needs: the
    number of particles of the system, the compiled kernel of the force
    and the current positions. *)
Record Context : Type := mkContext {
  numParticles : Z;
  impl : RestraintKernel;
  positions : list Vec3
}.

(** Construction of a context for a system of [n] particles holding the
    force [f]. *)
Definition createContext (n : Z) (f : ContForce) : result Context :=
  match initialize n f with
  | Ok ker => Ok (mkContext n ker (replicate (Z.to_nat n) vzero))
  | Throw e => Throw e
  end.

Definition setPositions (pos : list Vec3) (ctx : Context) : Context :=
  mkContext (numParticles ctx) (impl ctx) pos.

Definition getState (ctx : Context) : result (R * list Vec3) :=
  execute (impl ctx) (positions ctx).

Definition getPotentialEnergy (ctx : Context) : result R :=
  match getState ctx with Ok (e, _) => Ok e | Throw e => Throw e end.

(** [void ContForce::updateParametersInContext(Context& context)]: forwards
    to the compiled implementation of this force inside [context]. *)
Definition updateParametersInContext (f : ContForce) : method Context unit :=
  fun ctx =>
    match copyParametersToContext f (impl ctx) with
    | (r, ker) => (r, mkContext (numParticles ctx) ker (positions ctx))
    end.

(** The contexts that exist: created from a force, then synchronized any
    number of times. *)
Inductive compiled (n : Z) : RestraintKernel -> Prop :=
  | compiled_initialize f ker :
      initialize n f = Ok ker -> compiled n ker
  | compiled_copyParameters f ker ker' :
      compiled n ker ->
      copyParametersToContext f ker = (Ok tt, ker') ->
      compiled n ker'.

(** *** The scenarios of the reference tests

    TestReferenceContForce.cpp, with the assertions left out: each
    definition returns the quantities that the test compares. *)

(** A call whose exception the test does not catch. *)
Definition call {S A} (m : method S A) (s : S) : result (A * S) :=
  match m s with
  | (Ok a, s') => Ok (a, s')
  | (Throw e, _) => Throw e
  end.

(** [testForce]: ten particles in one chain, the last one off the line.
    Returns the expected energy, computed as the test does from the last
    pair alone, and the energy of the context.  (The finite-difference
    loop over the forces compares within a tolerance and is left out.) *)
Definition testForce : result (R * R) :=
  let positions :=
    map (fun i : Z => if (i =? 9)%Z then mkVec3 (IZR i) 0.7 2.1
                      else mkVec3 (IZR i) 0.7 0.5)
        [0; 1; 2; 3; 4; 5; 6; 7; 8; 9]%Z in
  let force := new_ContForce in
  let idxs := [0; 1; 2; 3; 4; 5; 6; 7; 8; 9]%Z in
  '(_, force) ← call (addBond idxs 10 1.0 17) force;
  context ← createContext 10 force;
  let context := setPositions positions context in
  '(energy, _) ← getState context;
  let length := 1.0 in
  let k := 17 in
  let delta := vsub (positions !!! 9%nat) (positions !!! 8%nat) in
  let dr := sqrt (vdot delta delta) - length in
  let expectedEnergy := k * dr * dr in
  mret (expectedEnergy, energy).

(** [testChangingParameters]: the energy before and after the parameter
    update, on one and the same context. *)
Definition testChangingParameters : result (R * R) :=
  let k := 1.5 in
  let length := 0.5 in
  let force := new_ContForce in
  let idxs := [0; 1]%Z in
  '(_, force) ← call (addBond idxs 2 length k) force;
  let positions := [mkVec3 1 0 0; mkVec3 2 0 0] in
  context ← createContext 2 force;
  let context := setPositions positions context in
  energy1 ← getPotentialEnergy context;
  let k2 := 2.2 in
  let length2 := 0.9 in
  '(_, force) ← call (setBondParameters 0 idxs 2 length2 k2) force;
  '(_, context) ← call (updateParametersInContext force) context;
  energy2 ← getPotentialEnergy context;
  mret (energy1, energy2).

(** [testMultipleBonds]: the energy and the force on particle 0. *)
Definition testMultipleBonds : result (R * Vec3) :=
  let positions := [mkVec3 0 0 0; mkVec3 (-1) 0 0; mkVec3 1 0 0] in
  let force := new_ContForce in
  let idxs1 := [0; 1]%Z in
  let idxs2 := [0; 2]%Z in
  '(_, force) ← call (addBond idxs1 2 0.5 17) force;
  '(_, force) ← call (addBond idxs2 2 0.5 17) force;
  context ← createContext 3 force;
  let context := setPositions positions context in
  '(energy, forces) ← getState context;
  mret (energy, forces !!! 0%nat).

(** The snapshots that the scenarios compile to, and their positions. *)
Definition chain_kernel : RestraintKernel :=
  mkKernel [([0; 1; 2; 3; 4; 5; 6; 7; 8; 9]%Z, 10%Z)] [(1.0, 17)].
Definition chain_positions : list Vec3 :=
  [mkVec3 0 0.7 0.5; mkVec3 1 0.7 0.5; mkVec3 2 0.7 0.5; mkVec3 3 0.7 0.5;
   mkVec3 4 0.7 0.5; mkVec3 5 0.7 0.5; mkVec3 6 0.7 0.5; mkVec3 7 0.7 0.5;
   mkVec3 8 0.7 0.5; mkVec3 9 0.7 2.1].

Definition one_bond_kernel (L k : R) : RestraintKernel :=
  mkKernel [([0; 1]%Z, 2%Z)] [(L, k)].
Definition two_particles : list Vec3 := [mkVec3 1 0 0; mkVec3 2 0 0].

Definition two_bonds_kernel : RestraintKernel :=
  mkKernel [([0; 1]%Z, 2%Z); ([0; 2]%Z, 2%Z)] [(0.5, 17); (0.5, 17)].
Definition three_particles : list Vec3 :=
  [mkVec3 0 0 0; mkVec3 (-1) 0 0; mkVec3 1 0 0].

(** What validation establishes for one entry of the topology snapshot,
    and for a kernel. *)
Definition wf_topology (n : Z) (top : list Z * Z) : Prop :=
  snd top = Z.of_nat (length (fst top))
  /\ Forall (fun p => (0 <= p < n)%Z) (fst top).

Definition wf_kernel (n : Z) (ker : RestraintKernel) : Prop :=
  length (parameters ker) = length (topology ker)
  /\ Forall (wf_topology n) (topology ker).

(** *** The sums of the specification *)

Fixpoint sum_R (l : list R) : R :=
  match l with [] => 0 | x :: l' => x + sum_R l' end.

Fixpoint sum_Vec3 (l : list Vec3) : Vec3 :=
  match l with [] => vzero | x :: l' => vadd x (sum_Vec3 l') end.

(** Distance between particles [p1] and [p2]. *)
Definition distance (pos : list Vec3) (p1 p2 : Z) : R :=
  vnorm (vsub (pos !!! Z.to_nat p2) (pos !!! Z.to_nat p1)).

(** [k_b * (|position[p[i+1]] - position[p[i]]| - L_b)^2]. *)
Definition pair_energy (pos : list Vec3) (L k : R) (p1 p2 : Z) : R :=
  k * (distance pos p1 p2 - L) ^ 2.

(** The energy of bond [b]: the sum over [i] in [[0, count-2]]. *)
Definition bond_energy (ker : RestraintKernel) (pos : list Vec3) (b : nat) : R :=
  let p := fst (topology ker !!! b) in
  let count := snd (topology ker !!! b) in
  let L := fst (parameters ker !!! b) in
  let k := snd (parameters ker !!! b) in
  sum_R (map (fun i => pair_energy pos L k (p !!! i) (p !!! S i))
             (seq 0 (Z.to_nat (count - 1)))).

(** The sum over every bond. *)
Definition total_energy (ker : RestraintKernel) (pos : list Vec3) : R :=
  sum_R (map (bond_energy ker pos) (seq 0 (length (topology ker)))).

(** What the pair [(p1, p2)] contributes to the force on particle [j]. *)
Definition pair_force (pos : list Vec3) (L k : R) (p1 p2 j : Z) : Vec3 :=
  let d := vsub (pos !!! Z.to_nat p2) (pos !!! Z.to_nat p1) in
  let r := distance pos p1 p2 in
  let g := vscale (2 * k * (r - L) / r) d in
  vadd (if Z.eqb p1 j then g else vzero)
       (if Z.eqb p2 j then vscale (-1) g else vzero).

Definition bond_force (ker : RestraintKernel) (pos : list Vec3) (j : Z) (b : nat) : Vec3 :=
  let p := fst (topology ker !!! b) in
  let count := snd (topology ker !!! b) in
  let L := fst (parameters ker !!! b) in
  let k := snd (parameters ker !!! b) in
  sum_Vec3 (map (fun i => pair_force pos L k (p !!! i) (p !!! S i) j)
                (seq 0 (Z.to_nat (count - 1)))).

(** The sum of all pair contributions to the force on particle [j]. *)
Definition total_force (ker : RestraintKernel) (pos : list Vec3) (j : Z) : Vec3 :=
  sum_Vec3 (map (bond_force ker pos j) (seq 0 (length (topology ker)))).

(** No consecutive pair of any bond has zero separation. *)
Definition nondegenerate (ker : RestraintKernel) (pos : list Vec3) : Prop :=
  forall b i : nat,
    (b < length (topology ker))%nat ->
    (Z.of_nat i < snd (topology ker !!! b) - 1)%Z ->
    distance pos (fst (topology ker !!! b) !!! i) (fst (topology ker !!! b) !!! S i) <> 0.

#[local] Close Scope R_scope.

(** * Properties of the bond table *)

Section BondTable.

#[local] Open Scope Z_scope.

Lemma to_int_small (z : Z) : 0 <= z <= INT_MAX -> to_int z = z.
Proof.
  unfold to_int, INT_MAX. intros Hz.
  rewrite Z.mod_small by lia. lia.
Qed.

(** Narrowing never yields more than the size it starts from. *)
Lemma to_int_le (z : Z) : 0 <= z -> to_int z <= z.
Proof.
  unfold to_int. intros Hz.
  pose proof (Z.mod_pos_bound (z + 2147483648) 4294967296 ltac:(lia)) as Hm.
  destruct (Z_lt_le_dec z 2147483648) as [Hlt|Hge].
  - rewrite Z.mod_small by lia. lia.
  - lia.
Qed.

Lemma ASSERT_VALID_INDEX_ok {A} (index : Z) (v : list A) :
  0 <= index < int_size v -> ASSERT_VALID_INDEX index v = Ok tt.
Proof.
  intros [H0 H1]. unfold ASSERT_VALID_INDEX.
  destruct (Z.ltb_spec index 0); [lia|].
  destruct (Z.geb_spec index (int_size v)); [lia|]. reflexivity.
Qed.

Lemma ASSERT_VALID_INDEX_throw {A} (index : Z) (v : list A) :
  index < 0 \/ int_size v <= index ->
  ASSERT_VALID_INDEX index v = Throw IndexOutOfRange.
Proof.
  intros H. unfold ASSERT_VALID_INDEX.
  destruct (Z.ltb_spec index 0); [reflexivity|].
  destruct (Z.geb_spec index (int_size v)); [reflexivity|lia].
Qed.

(** The assertion has only two outcomes. *)
Lemma ASSERT_VALID_INDEX_cases {A} (index : Z) (v : list A) :
  (0 <= index < int_size v /\ ASSERT_VALID_INDEX index v = Ok tt)
  \/ ((index < 0 \/ int_size v <= index)
      /\ ASSERT_VALID_INDEX index v = Throw IndexOutOfRange).
Proof.
  destruct (Z_lt_le_dec index 0) as [Hn|Hp].
  - right. split; [lia|]. apply ASSERT_VALID_INDEX_throw. lia.
  - destruct (Z_lt_le_dec index (int_size v)) as [Hlt|Hge].
    + left. split; [lia|]. apply ASSERT_VALID_INDEX_ok. lia.
    + right. split; [lia|]. apply ASSERT_VALID_INDEX_throw. lia.
Qed.

(** An index that passes the assertion is a position of the vector. *)
Lemma valid_index_lt {A} (index : Z) (v : list A) :
  0 <= index < int_size v -> (Z.to_nat index < length v)%nat.
Proof.
  unfold int_size. intros [H0 H1].
  pose proof (to_int_le (Z.of_nat (length v)) ltac:(lia)). lia.
Qed.

(** The four field assignments of [setBondParameters] amount to storing
    a whole new entry at [index]. *)
Lemma four_assignments (i : nat) (P : list Z) (n : Z) (L k : R) (l : list BondInfo.t) :
  alter (BondInfo.set_k k) i
    (alter (BondInfo.set_length L) i
       (alter (BondInfo.set_npart n) i
          (alter (BondInfo.set_idxs P) i l)))
  = <[i := BondInfo.mk P n L k]> l.
Proof.
  rewrite !list_alter_alter_eq, list_insert_alter.
  apply list_alter_ext; [|reflexivity].
  intros [] _. reflexivity.
Qed.

Lemma setBondParameters_ok (f : ContForce) (i : Z) (P : list Z) (n : Z) (L k : R) :
  0 <= i < getNumBonds f ->
  setBondParameters i P n L k f
  = (Ok tt, mkContForce (<[Z.to_nat i := BondInfo.mk P n L k]> (bonds f))).
Proof.
  intros Hi. unfold setBondParameters.
  rewrite ASSERT_VALID_INDEX_ok by exact Hi.
  unfold mbind, method_bind, assign, modify. cbn [bonds].
  rewrite four_assignments. reflexivity.
Qed.

Lemma setBondParameters_throw (f : ContForce) (i : Z) (P : list Z) (n : Z) (L k : R) :
  i < 0 \/ getNumBonds f <= i ->
  setBondParameters i P n L k f = (Throw IndexOutOfRange, f).
Proof.
  intros Hi. unfold setBondParameters.
  rewrite ASSERT_VALID_INDEX_throw by exact Hi. reflexivity.
Qed.

Lemma getBondParameters_ok (f : ContForce) (i : Z) :
  0 <= i < getNumBonds f ->
  getBondParameters i f
  = Ok (let b := at_index (bonds f) i in
        (BondInfo.idxs b, BondInfo.npart b, BondInfo.length b, BondInfo.k b)).
Proof.
  intros Hi. unfold getBondParameters.
  rewrite ASSERT_VALID_INDEX_ok by exact Hi. reflexivity.
Qed.

Lemma addBond_eq (f : ContForce) (P : list Z) (n : Z) (L k : R) :
  addBond P n L k f
  = (Ok (to_int (Z.of_nat (length (bonds f)))),
     mkContForce (bonds f ++ [BondInfo.mk P n L k])).
Proof.
  unfold addBond, mbind, method_bind, modify, get, mret, method_ret.
  cbn [bonds]. rewrite length_app. cbn [length].
  do 3 f_equal. lia.
Qed.

(** [addBonds] from a table of any size: the indices continue from the
    size of the table, as long as they fit an [int]. *)
Lemma addBonds_from (calls : list (list Z * Z * R * R)) (f : ContForce) :
  Z.of_nat (length (bonds f) + length calls) <= INT_MAX + 1 ->
  exists f',
    addBonds calls f
    = (Ok (map Z.of_nat (seq (length (bonds f)) (length calls))), f')
    /\ length (bonds f') = (length (bonds f) + length calls)%nat.
Proof.
  revert f. induction calls as [|[[[P n] L] k] rest IH]; intros f Hlen.
  - exists f. split; [reflexivity|]. cbn [length]. lia.
  - cbn [length] in Hlen.
    cbn [addBonds]. unfold mbind at 1, method_bind at 1.
    rewrite addBond_eq.
    rewrite to_int_small by (unfold INT_MAX in *; lia).
    set (f1 := mkContForce (bonds f ++ [BondInfo.mk P n L k])).
    assert (Hf1 : length (bonds f1) = S (length (bonds f))).
    { unfold f1. cbn [bonds]. rewrite length_app. cbn [length]. lia. }
    destruct (IH f1) as (f' & Hrun & Hlen').
    { rewrite Hf1. lia. }
    exists f'. split.
    + unfold mbind, method_bind. rewrite Hrun.
      unfold mret, method_ret. rewrite Hf1. reflexivity.
    + rewrite Hlen', Hf1. cbn [length]. lia.
Qed.

(** C4: the calls of a sequence of [addBond] calls on a new [ContForce]
    return the indices 0, 1, 2, ... in call order, and afterwards
    [getNumBonds] returns the number of calls (a number of calls that an
    [int] can hold). *)
Theorem addBond_returns_consecutive_indices (calls : list (list Z * Z * R * R)) :
  Z.of_nat (length calls) <= INT_MAX ->
  exists f,
    addBonds calls new_ContForce
    = (Ok (map Z.of_nat (seq 0 (length calls))), f)
    /\ getNumBonds f = Z.of_nat (length calls).
Proof.
  intros Hn.
  destruct (addBonds_from calls new_ContForce) as (f & Hrun & Hlen).
  { cbn [new_ContForce bonds length]. lia. }
  exists f. split; [exact Hrun|].
  unfold getNumBonds, int_size. rewrite Hlen. cbn [new_ContForce bonds length].
  apply to_int_small. lia.
Qed.

Lemma addBond_returns_consecutive_indices_witness :
  exists f,
    addBonds [([0; 1], 2, 0.5%R, 1.5%R); ([1; 2; 3], 3, 1%R, 17%R); ([4], 1, 0%R, 0%R)]
      new_ContForce
    = (Ok [0; 1; 2], f)
    /\ getNumBonds f = 3.
Proof.
  apply (addBond_returns_consecutive_indices
           [([0; 1], 2, 0.5%R, 1.5%R); ([1; 2; 3], 3, 1%R, 17%R); ([4], 1, 0%R, 0%R)]).
  cbn [length]. unfold INT_MAX. lia.
Defined.

Lemma set_get_insert (f : ContForce) (i : Z) (P : list Z) (n : Z) (L k : R) :
  0 <= i < getNumBonds f ->
  setBondParameters i P n L k f
  = (Ok tt, mkContForce (<[Z.to_nat i := BondInfo.mk P n L k]> (bonds f)))
  /\ getBondParameters i
       (mkContForce (<[Z.to_nat i := BondInfo.mk P n L k]> (bonds f)))
     = Ok (P, n, L, k).
Proof.
  intros Hi. split; [apply setBondParameters_ok; exact Hi|].
  pose proof (valid_index_lt i (bonds f) Hi) as Hlt.
  rewrite getBondParameters_ok.
  - cbn [bonds]. unfold at_index.
    rewrite list_lookup_total_insert_eq by exact Hlt. reflexivity.
  - unfold getNumBonds, int_size in *. cbn [bonds].
    rewrite length_insert. exact Hi.
Qed.

(** C5: for a valid index, [setBondParameters] followed by
    [getBondParameters] at the same index yields exactly the values set. *)
Theorem set_then_get_roundtrip (f : ContForce) (i : Z) (P : list Z) (n : Z) (L k : R) :
  0 <= i < getNumBonds f ->
  exists f',
    setBondParameters i P n L k f = (Ok tt, f')
    /\ getBondParameters i f' = Ok (P, n, L, k).
Proof.
  intros Hi. destruct (set_get_insert f i P n L k Hi) as [Hset Hget].
  eexists. split; [exact Hset | exact Hget].
Qed.

Lemma set_then_get_roundtrip_witness :
  exists f',
    setBondParameters 1 [5; 6; 7] 3 0.9%R 2.2%R
      (mkContForce [BondInfo.mk [0; 1] 2 0.5%R 1.5%R; BondInfo.mk [2; 3] 2 1%R 17%R])
    = (Ok tt, f')
    /\ getBondParameters 1 f' = Ok ([5; 6; 7], 3, 0.9%R, 2.2%R).
Proof.
  apply (set_then_get_roundtrip
           (mkContForce [BondInfo.mk [0; 1] 2 0.5%R 1.5%R; BondInfo.mk [2; 3] 2 1%R 17%R])).
  vm_compute. split; [discriminate | reflexivity].
Defined.

(** C6: with an index not less than [getNumBonds()], [getBondParameters]
    and [setBondParameters] both throw the out-of-range exception, and the
    failed [setBondParameters] leaves the bond table as it was
    ([getBondParameters] is const). *)
Theorem index_not_less_than_numBonds_throws
    (f : ContForce) (i : Z) (P : list Z) (n : Z) (L k : R) :
  getNumBonds f <= i ->
  getBondParameters i f = Throw IndexOutOfRange
  /\ setBondParameters i P n L k f = (Throw IndexOutOfRange, f).
Proof.
  intros Hi. split.
  - unfold getBondParameters.
    rewrite ASSERT_VALID_INDEX_throw by (right; exact Hi). reflexivity.
  - apply setBondParameters_throw. right. exact Hi.
Qed.

Lemma index_not_less_than_numBonds_throws_witness :
  getBondParameters 1 (mkContForce [BondInfo.mk [0; 1] 2 0.5%R 1.5%R])
  = Throw IndexOutOfRange
  /\ setBondParameters 1 [0; 1] 2 0.9%R 2.2%R
       (mkContForce [BondInfo.mk [0; 1] 2 0.5%R 1.5%R])
     = (Throw IndexOutOfRange, mkContForce [BondInfo.mk [0; 1] 2 0.5%R 1.5%R]).
Proof.
  apply (index_not_less_than_numBonds_throws
           (mkContForce [BondInfo.mk [0; 1] 2 0.5%R 1.5%R]) 1).
  vm_compute. discriminate.
Defined.

(** C7, as the code has it: [addBond] and [setBondParameters] do not
    compare the count with the length of the particle list.  [addBond]
    never throws and stores the count it is given; [setBondParameters]
    throws only the out-of-range exception of its index check, and for a
    valid index stores the count it is given. *)
Theorem count_is_stored_unchecked
    (f : ContForce) (i : Z) (P : list Z) (n : Z) (L k : R) :
  (exists j, addBond P n L k f
             = (Ok j, mkContForce (bonds f ++ [BondInfo.mk P n L k])))
  /\ (setBondParameters i P n L k f = (Throw IndexOutOfRange, f)
      \/ (setBondParameters i P n L k f
           = (Ok tt, mkContForce (<[Z.to_nat i := BondInfo.mk P n L k]> (bonds f)))
          /\ getBondParameters i
               (mkContForce (<[Z.to_nat i := BondInfo.mk P n L k]> (bonds f)))
             = Ok (P, n, L, k))).
Proof.
  split.
  - eexists. apply addBond_eq.
  - destruct (ASSERT_VALID_INDEX_cases i (bonds f)) as [[Hi _]|[Hi _]].
    + right. split; [apply setBondParameters_ok; exact Hi|].
      destruct (set_get_insert f i P n L k Hi) as [_ Hget]. exact Hget.
    + left. apply setBondParameters_throw. exact Hi.
Qed.

(** C7, counterexample: a count of 5 with a list of two particles is
    accepted by [addBond], and a count of 7 with the same list by
    [setBondParameters]; both counts are stored. *)
Lemma count_mismatch_is_accepted :
  5 <> Z.of_nat (length [0; 1])
  /\ addBond [0; 1] 5 0.5%R 1.5%R new_ContForce
     = (Ok 0, mkContForce [BondInfo.mk [0; 1] 5 0.5%R 1.5%R])
  /\ 7 <> Z.of_nat (length [0; 1])
  /\ setBondParameters 0 [0; 1] 7 0.5%R 1.5%R
       (mkContForce [BondInfo.mk [0; 1] 5 0.5%R 1.5%R])
     = (Ok tt, mkContForce [BondInfo.mk [0; 1] 7 0.5%R 1.5%R]).
Proof.
  split; [cbn; lia|]. split; [reflexivity|]. split; [cbn; lia|]. reflexivity.
Qed.

(** C9: [usesPeriodicBoundaryConditions] returns false whatever the
    state of the object. *)
Theorem never_uses_periodic_boundary_conditions (f : ContForce) :
  usesPeriodicBoundaryConditions f = false.
Proof. reflexivity. Qed.

(** C10: [setBondParameters] at index [i], whether it succeeds or throws,
    leaves [getNumBonds()] and every entry at another index as they were. *)
Theorem setBondParameters_changes_only_its_index
    (f : ContForce) (i : Z) (P : list Z) (n : Z) (L k : R) :
  let f' := snd (setBondParameters i P n L k f) in
  getNumBonds f' = getNumBonds f
  /\ (forall j : nat, j <> Z.to_nat i -> bonds f' !! j = bonds f !! j)
  /\ (forall j : Z, j <> i -> getBondParameters j f' = getBondParameters j f).
Proof.
  destruct (ASSERT_VALID_INDEX_cases i (bonds f)) as [[Hi _]|[Hi _]].
  - rewrite setBondParameters_ok by exact Hi. cbn [snd].
    assert (Hnum : getNumBonds
                     (mkContForce (<[Z.to_nat i := BondInfo.mk P n L k]> (bonds f)))
                   = getNumBonds f).
    { unfold getNumBonds, int_size. cbn [bonds]. rewrite length_insert. reflexivity. }
    split; [exact Hnum|]. split.
    + intros j Hj. cbn [bonds]. apply list_lookup_insert_ne. congruence.
    + intros j Hj. unfold getBondParameters. cbn [bonds].
      destruct (ASSERT_VALID_INDEX_cases j (bonds f)) as [[Hv Hok]|[Hv Hth]].
      * rewrite Hok, ASSERT_VALID_INDEX_ok
          by (unfold int_size in *; rewrite length_insert; exact Hv).
        unfold at_index.
        rewrite list_lookup_total_insert_ne by lia. reflexivity.
      * rewrite Hth, ASSERT_VALID_INDEX_throw
          by (unfold int_size in *; rewrite length_insert; exact Hv).
        reflexivity.
  - rewrite setBondParameters_throw by exact Hi. cbn [snd]. auto.
Qed.

Lemma setBondParameters_changes_only_its_index_witness :
  getBondParameters 0
    (snd (setBondParameters 1 [5; 6; 7] 3 0.9%R 2.2%R
            (mkContForce [BondInfo.mk [0; 1] 2 0.5%R 1.5%R;
                          BondInfo.mk [2; 3] 2 1%R 17%R])))
  = getBondParameters 0
      (mkContForce [BondInfo.mk [0; 1] 2 0.5%R 1.5%R; BondInfo.mk [2; 3] 2 1%R 17%R]).
Proof.
  apply (setBondParameters_changes_only_its_index
           (mkContForce [BondInfo.mk [0; 1] 2 0.5%R 1.5%R; BondInfo.mk [2; 3] 2 1%R 17%R])
           1 [5; 6; 7] 3 0.9%R 2.2%R).
  lia.
Defined.

End BondTable.

(** * Properties of the compiled restraint *)

Section Kernel.

#[local] Open Scope R_scope.

Lemma vadd_assoc (a b c : Vec3) : vadd (vadd a b) c = vadd a (vadd b c).
Proof. unfold vadd. cbn [vx vy vz]. f_equal; ring. Qed.

Lemma vadd_zero_l (a : Vec3) : vadd vzero a = a.
Proof. destruct a. unfold vadd, vzero. cbn [vx vy vz]. f_equal; ring. Qed.

Lemma vadd_zero_r (a : Vec3) : vadd a vzero = a.
Proof. destruct a. unfold vadd, vzero. cbn [vx vy vz]. f_equal; ring. Qed.

Lemma vsub_vadd_neg (a b : Vec3) : vsub a b = vadd a (vscale (-1) b).
Proof. unfold vsub, vadd, vscale. cbn [vx vy vz]. f_equal; ring. Qed.

(** ** Loops *)

Lemma for_each_cons {S A} (x : A) (l : list A) (body : A -> method S unit) (s : S) :
  for_each (x :: l) body s
  = match body x s with
    | (Ok _, s') => for_each l body s'
    | (Throw e, s') => (Throw e, s')
    end.
Proof. reflexivity. Qed.

(** A loop whose every iteration succeeds, adds [en a] to the energy and
    [fo a j] to the force on each particle [j], succeeds and adds the sums. *)
Lemma for_each_accumulates {A} (body : A -> method accum unit)
    (en : A -> R) (fo : A -> nat -> Vec3) (l : list A) :
  (forall a, In a l -> forall e F,
     exists F', body a (e, F) = (Ok tt, (e + en a, F'))
                /\ length F' = length F
                /\ forall j, (j < length F)%nat ->
                     F' !!! j = vadd (F !!! j) (fo a j)) ->
  forall e F,
    exists F', for_each l body (e, F) = (Ok tt, (e + sum_R (map en l), F'))
               /\ length F' = length F
               /\ forall j, (j < length F)%nat ->
                    F' !!! j = vadd (F !!! j) (sum_Vec3 (map (fun a => fo a j) l)).
Proof.
  induction l as [|a l IH]; intros Hbody e F.
  - exists F. cbn [for_each map sum_R sum_Vec3]. split; [|split].
    + unfold mret, method_ret. do 2 f_equal. ring.
    + reflexivity.
    + intros j _. symmetry. apply vadd_zero_r.
  - destruct (Hbody a (or_introl eq_refl) e F) as (F1 & Hstep & Hlen1 & Hf1).
    destruct (IH (fun b Hb => Hbody b (or_intror Hb)) (e + en a) F1)
      as (F2 & Hrest & Hlen2 & Hf2).
    exists F2. split; [|split].
    + rewrite for_each_cons, Hstep, Hrest. cbn [map sum_R].
      do 2 f_equal. ring.
    + congruence.
    + intros j Hj. cbn [map sum_Vec3].
      rewrite Hf2 by (rewrite Hlen1; exact Hj).
      rewrite Hf1 by exact Hj. apply vadd_assoc.
Qed.

(** Whenever a loop returns, the energy has grown by the sum of what its
    iterations add. *)
Lemma for_each_energy {A} (body : A -> method accum unit) (en : A -> R) (l : list A) :
  (forall a, In a l -> forall s u s',
     body a s = (Ok u, s') -> fst s' = fst s + en a) ->
  forall s u s',
    for_each l body s = (Ok u, s') -> fst s' = fst s + sum_R (map en l).
Proof.
  induction l as [|a l IH]; intros Hbody s u s' Hrun.
  - cbn in Hrun. injection Hrun as _ <-. cbn [map sum_R]. ring.
  - rewrite for_each_cons in Hrun.
    destruct (body a s) as [[u1|e1] s1] eqn:Hstep; [|discriminate].
    apply (Hbody a (or_introl eq_refl)) in Hstep.
    apply (IH (fun b Hb => Hbody b (or_intror Hb))) in Hrun.
    rewrite Hrun, Hstep. cbn [map sum_R]. ring.
Qed.

(** ** One pair *)

Lemma pair_step_ok (pos : list Vec3) (L k : R) (p1 p2 : Z) (e : R) (F : list Vec3) :
  distance pos p1 p2 <> 0 ->
  pair_step pos L k p1 p2 (e, F)
  = (Ok tt,
     (e + k * (distance pos p1 p2 - L) * (distance pos p1 p2 - L),
      let d := vsub (pos !!! Z.to_nat p2) (pos !!! Z.to_nat p1) in
      let g := vscale (2 * k * (distance pos p1 p2 - L) / distance pos p1 p2) d in
      alter (fun v => vsub v g) (Z.to_nat p2)
        (alter (fun v => vadd v g) (Z.to_nat p1) F))).
Proof.
  intros Hr. unfold pair_step, distance in *.
  destruct (Req_dec_T _ 0) as [H0|_]; [contradiction|]. reflexivity.
Qed.

Lemma pair_step_returns (pos : list Vec3) (L k : R) (p1 p2 : Z) s u s' :
  pair_step pos L k p1 p2 s = (Ok u, s') ->
  fst s' = fst s + pair_energy pos L k p1 p2.
Proof.
  destruct s as [e F]. unfold pair_step, pair_energy, distance.
  destruct (Req_dec_T _ 0) as [H0|_]; [discriminate|].
  intros [= _ <-]. cbn [fst]. ring.
Qed.

(** The force buffer after one pair, read at particle [j]. *)
Lemma pair_step_force (pos : list Vec3) (L k : R) (p1 p2 : Z) (F : list Vec3) (j : nat) :
  (0 <= p1)%Z -> (0 <= p2)%Z -> (j < length F)%nat ->
  let d := vsub (pos !!! Z.to_nat p2) (pos !!! Z.to_nat p1) in
  let g := vscale (2 * k * (distance pos p1 p2 - L) / distance pos p1 p2) d in
  alter (fun v => vsub v g) (Z.to_nat p2)
    (alter (fun v => vadd v g) (Z.to_nat p1) F) !!! j
  = vadd (F !!! j) (pair_force pos L k p1 p2 (Z.of_nat j)).
Proof.
  intros H1 H2 Hj d g.
  unfold pair_force. fold d. fold g.
  assert (Hj' : (j < length (alter (fun v => vadd v g) (Z.to_nat p1) F))%nat)
    by (rewrite length_alter; exact Hj).
  destruct (Z.eqb_spec p1 (Z.of_nat j)) as [E1|E1];
    destruct (Z.eqb_spec p2 (Z.of_nat j)) as [E2|E2].
  - replace (Z.to_nat p1) with j in * by lia. replace (Z.to_nat p2) with j by lia.
    rewrite list_lookup_total_alter_eq by exact Hj'.
    rewrite list_lookup_total_alter_eq by exact Hj.
    rewrite vsub_vadd_neg. apply vadd_assoc.
  - replace (Z.to_nat p1) with j in * by lia.
    rewrite list_lookup_total_alter_ne by lia.
    rewrite list_lookup_total_alter_eq by exact Hj.
    rewrite vadd_zero_r. reflexivity.
  - replace (Z.to_nat p2) with j by lia.
    rewrite list_lookup_total_alter_eq by exact Hj'.
    rewrite list_lookup_total_alter_ne by lia.
    rewrite vadd_zero_l. apply vsub_vadd_neg.
  - rewrite !list_lookup_total_alter_ne by lia.
    rewrite !vadd_zero_r. reflexivity.
Qed.

(** ** Validation *)

Lemma valid_bond_wf (n : Z) (b : BondInfo.t) :
  valid_bond n b = true -> wf_topology n (topology_of b).
Proof.
  unfold valid_bond, wf_topology, topology_of. cbn [fst snd].
  intros [Hc Hp]%andb_prop. split.
  - apply Z.eqb_eq. exact Hc.
  - apply List.Forall_forall. intros p Hin.
    rewrite forallb_forall in Hp. specialize (Hp p Hin).
    apply andb_prop in Hp as [H0 H1].
    apply Z.leb_le in H0. apply Z.ltb_lt in H1. lia.
Qed.

Lemma initialize_wf (n : Z) (f : ContForce) (ker : RestraintKernel) :
  initialize n f = Ok ker -> wf_kernel n ker.
Proof.
  unfold initialize.
  destruct (forallb (valid_bond n) (bonds f)) eqn:Hv; [|discriminate].
  intros [= <-]. split; cbn [topology parameters].
  - rewrite !length_map. reflexivity.
  - apply List.Forall_map, List.Forall_forall. intros b Hin.
    apply valid_bond_wf. rewrite forallb_forall in Hv. apply Hv, Hin.
Qed.

Lemma copyParametersToContext_wf (n : Z) (f : ContForce) (ker ker' : RestraintKernel) :
  wf_kernel n ker ->
  copyParametersToContext f ker = (Ok tt, ker') ->
  wf_kernel n ker'.
Proof.
  intros [Hlen Htop]. unfold copyParametersToContext.
  destruct (Nat.eqb_spec (length (bonds f)) (length (topology ker))) as [E|E];
    [|discriminate].
  intros [= <-]. split; cbn [topology parameters].
  - rewrite length_map. exact E.
  - exact Htop.
Qed.

Lemma compiled_wf (n : Z) (ker : RestraintKernel) :
  compiled n ker -> wf_kernel n ker.
Proof.
  induction 1 as [f ker Hinit | f ker ker' _ IH Hcopy].
  - eapply initialize_wf, Hinit.
  - eapply copyParametersToContext_wf; [exact IH | exact Hcopy].
Qed.

(** The particles of a consecutive pair of a validated chain are particle
    indices of the system. *)
Lemma wf_pair_in_range (n : Z) (ker : RestraintKernel) (b i : nat) :
  wf_kernel n ker ->
  (b < length (topology ker))%nat ->
  (i < Z.to_nat (snd (topology ker !!! b) - 1))%nat ->
  (0 <= fst (topology ker !!! b) !!! i < n)%Z
  /\ (0 <= fst (topology ker !!! b) !!! S i < n)%Z.
Proof.
  intros [_ Htop] Hb Hi.
  pose proof (list_lookup_lookup_total_lt _ _ Hb) as Hlk.
  rewrite Forall_lookup in Htop. specialize (Htop _ _ Hlk).
  destruct Htop as [Hcount Hp]. rewrite Hcount in Hi.
  rewrite Forall_lookup in Hp.
  split; eapply Hp; apply list_lookup_lookup_total_lt; lia.
Qed.

(** ** One bond *)

Lemma bond_step_ok (n : Z) (ker : RestraintKernel) (pos : list Vec3) (b : nat) :
  wf_kernel n ker ->
  (b < length (topology ker))%nat ->
  (forall i : nat,
     (Z.of_nat i < snd (topology ker !!! b) - 1)%Z ->
     distance pos (fst (topology ker !!! b) !!! i)
                  (fst (topology ker !!! b) !!! S i) <> 0) ->
  forall e F,
    exists F',
      bond_step pos (topology ker !!! b) (parameters ker !!! b) (e, F)
      = (Ok tt, (e + bond_energy ker pos b, F'))
      /\ length F' = length F
      /\ forall j, (j < length F)%nat ->
           F' !!! j = vadd (F !!! j) (bond_force ker pos (Z.of_nat j) b).
Proof.
  intros Hwf Hb Hnd.
  pose proof (wf_pair_in_range n ker b) as Hrange.
  unfold bond_step, bond_energy, bond_force.
  destruct (topology ker !!! b) as [p count].
  destruct (parameters ker !!! b) as [L k].
  cbn [fst snd] in *.
  apply (for_each_accumulates
           (fun i => pair_step pos L k (p !!! i) (p !!! S i))
           (fun i => pair_energy pos L k (p !!! i) (p !!! S i))
           (fun i j => pair_force pos L k (p !!! i) (p !!! S i) (Z.of_nat j))).
  intros i Hi%in_seq e F.
  destruct (Hrange i Hwf Hb ltac:(lia)) as [H1 H2].
  eexists. split; [|split].
  - rewrite pair_step_ok by (apply Hnd; lia).
    unfold pair_energy. do 3 f_equal. ring.
  - rewrite !length_alter. reflexivity.
  - intros j Hj. apply pair_step_force; lia.
Qed.

Lemma bond_step_returns (ker : RestraintKernel) (pos : list Vec3) (b : nat) s u s' :
  bond_step pos (topology ker !!! b) (parameters ker !!! b) s = (Ok u, s') ->
  fst s' = fst s + bond_energy ker pos b.
Proof.
  unfold bond_step, bond_energy.
  destruct (topology ker !!! b) as [p count].
  destruct (parameters ker !!! b) as [L k].
  cbn [fst snd].
  apply (for_each_energy
           (fun i => pair_step pos L k (p !!! i) (p !!! S i))
           (fun i => pair_energy pos L k (p !!! i) (p !!! S i))).
  intros i _ s0 u0 s0'. apply pair_step_returns.
Qed.

(** A bond of a single particle has no consecutive pair: the accumulators
    come back as they were. *)
Lemma bond_step_single (pos : list Vec3) (p : list Z) (par : R * R) (acc : accum) :
  bond_step pos (p, 1%Z) par acc = (Ok tt, acc).
Proof. destruct par. reflexivity. Qed.

(** ** All bonds *)

Lemma execute_ok (n : Z) (ker : RestraintKernel) (pos : list Vec3) :
  wf_kernel n ker ->
  nondegenerate ker pos ->
  exists F,
    execute ker pos = Ok (total_energy ker pos, F)
    /\ length F = length pos
    /\ forall j, (j < length pos)%nat ->
         F !!! j = total_force ker pos (Z.of_nat j).
Proof.
  intros Hwf Hnd.
  destruct (for_each_accumulates
              (fun b => bond_step pos (topology ker !!! b) (parameters ker !!! b))
              (bond_energy ker pos)
              (fun b j => bond_force ker pos (Z.of_nat j) b)
              (seq 0 (length (topology ker))))
    with (e := 0) (F := replicate (length pos) vzero)
    as (F & Hrun & Hlen & Hforce).
  { intros b Hb%in_seq e F.
    apply (bond_step_ok n); [exact Hwf | lia |].
    intros i Hi. apply Hnd; [lia | exact Hi]. }
  rewrite length_replicate in *.
  exists F. split; [|split].
  - unfold execute, kernel_loop. rewrite Hrun.
    unfold total_energy. do 2 f_equal. ring.
  - exact Hlen.
  - intros j Hj. rewrite Hforce by exact Hj.
    rewrite lookup_total_replicate_2 by exact Hj.
    apply vadd_zero_l.
Qed.

Lemma execute_returns (ker : RestraintKernel) (pos : list Vec3) (E : R) (F : list Vec3) :
  execute ker pos = Ok (E, F) -> E = total_energy ker pos.
Proof.
  unfold execute, kernel_loop.
  destruct (for_each _ _ _) as [[u|e] acc] eqn:Hrun; [|discriminate].
  intros [= ->].
  apply (for_each_energy _ (bond_energy ker pos)) in Hrun.
  - cbn [fst] in Hrun. rewrite Hrun. unfold total_energy. ring.
  - intros b _ s u0 s'. apply bond_step_returns.
Qed.

(** ** An evaluation that returns met no degenerate pair *)

Lemma for_each_returns_each {S A} (body : A -> method S unit) (good : A -> Prop)
    (l : list A) :
  (forall a, In a l -> forall s u s', body a s = (Ok u, s') -> good a) ->
  forall s u s', for_each l body s = (Ok u, s') -> forall a, In a l -> good a.
Proof.
  induction l as [|x l IH]; intros Hbody s u s' Hrun a Hin; [destruct Hin|].
  rewrite for_each_cons in Hrun.
  destruct (body x s) as [[u1|e1] s1] eqn:Hstep; [|discriminate].
  destruct Hin as [<-|Hin].
  - eapply (Hbody x (or_introl eq_refl)), Hstep.
  - eapply (IH (fun b Hb => Hbody b (or_intror Hb))); [exact Hrun | exact Hin].
Qed.

Lemma pair_step_returns_nonzero (pos : list Vec3) (L k : R) (p1 p2 : Z) s u s' :
  pair_step pos L k p1 p2 s = (Ok u, s') -> distance pos p1 p2 <> 0.
Proof.
  destruct s as [e F]. unfold pair_step, distance.
  destruct (Req_dec_T _ 0) as [H0|H0]; [discriminate|]. intros _. exact H0.
Qed.

Lemma execute_returns_nondegenerate (ker : RestraintKernel) (pos : list Vec3) E F :
  execute ker pos = Ok (E, F) -> nondegenerate ker pos.
Proof.
  unfold execute, kernel_loop.
  destruct (for_each _ _ _) as [[u|e] acc] eqn:Hrun; [|discriminate].
  intros _ b i Hb Hi.
  assert (Hbond : forall b, In b (seq 0 (length (topology ker))) ->
            forall s u s',
              bond_step pos (topology ker !!! b) (parameters ker !!! b) s = (Ok u, s') ->
              forall i : nat,
                (Z.of_nat i < snd (topology ker !!! b) - 1)%Z ->
                distance pos (fst (topology ker !!! b) !!! i)
                             (fst (topology ker !!! b) !!! S i) <> 0).
  { clear. intros b _ s u s'. unfold bond_step.
    destruct (topology ker !!! b) as [p count].
    destruct (parameters ker !!! b) as [L k]. cbn [fst snd].
    intros Hrun i Hi.
    refine (for_each_returns_each _
              (fun i => distance pos (p !!! i) (p !!! S i) <> 0) _ _ _ _ _ Hrun i _).
    - intros j _ s0 u0 s0'. apply pair_step_returns_nonzero.
    - apply in_seq. lia. }
  refine (for_each_returns_each _ _ _ Hbond _ _ _ Hrun b _ i Hi).
  apply in_seq. lia.
Qed.

(** ** The scenarios *)

Lemma distance_two_particles : distance two_particles 0 1 = 1.
Proof.
  unfold distance, vnorm, vdot, vsub. simpl.
  replace (_ + _) with 1 by ring. apply sqrt_1.
Qed.

Lemma one_bond_kernel_wf (L k : R) : wf_kernel 2 (one_bond_kernel L k).
Proof.
  apply (initialize_wf 2 (mkContForce [BondInfo.mk [0; 1]%Z 2 L k])). reflexivity.
Qed.

Lemma one_bond_kernel_nondegenerate (L k : R) :
  nondegenerate (one_bond_kernel L k) two_particles.
Proof.
  intros b i Hb Hi. simpl in Hb.
  destruct b as [|b]; [|lia]. simpl in Hi |- *.
  destruct i as [|i]; [|lia]. simpl.
  rewrite distance_two_particles. lra.
Qed.

Lemma one_bond_kernel_energy (L k : R) :
  total_energy (one_bond_kernel L k) two_particles = k * (1 - L) ^ 2.
Proof.
  unfold total_energy, bond_energy, pair_energy. simpl.
  rewrite distance_two_particles. ring.
Qed.

Lemma one_bond_kernel_execute (L k : R) :
  exists F, execute (one_bond_kernel L k) two_particles = Ok (k * (1 - L) ^ 2, F).
Proof.
  destruct (execute_ok 2 _ _ (one_bond_kernel_wf L k)
              (one_bond_kernel_nondegenerate L k)) as (F & Hrun & _).
  rewrite one_bond_kernel_energy in Hrun. exists F. exact Hrun.
Qed.

Lemma one_bond_kernel_compiled (L k : R) : compiled 2 (one_bond_kernel L k).
Proof.
  apply (compiled_initialize 2 (mkContForce [BondInfo.mk [0; 1]%Z 2 L k])).
  reflexivity.
Qed.

Lemma distance_three_particles_01 : distance three_particles 0 1 = 1.
Proof.
  unfold distance, vnorm, vdot, vsub. simpl.
  replace (_ + _) with 1 by ring. apply sqrt_1.
Qed.

Lemma distance_three_particles_02 : distance three_particles 0 2 = 1.
Proof.
  unfold distance, vnorm, vdot, vsub. simpl.
  replace (_ + _) with 1 by ring. apply sqrt_1.
Qed.

Lemma two_bonds_kernel_compiled : compiled 3 two_bonds_kernel.
Proof.
  apply (compiled_initialize 3
           (mkContForce [BondInfo.mk [0; 1]%Z 2 0.5 17; BondInfo.mk [0; 2]%Z 2 0.5 17])).
  reflexivity.
Qed.

Lemma two_bonds_kernel_nondegenerate : nondegenerate two_bonds_kernel three_particles.
Proof.
  intros b i Hb Hi. simpl in Hb.
  destruct b as [|[|b]]; [| |lia]; simpl in Hi |- *;
    (destruct i as [|i]; [|lia]); simpl.
  - rewrite distance_three_particles_01. lra.
  - rewrite distance_three_particles_02. lra.
Qed.

Lemma two_bonds_kernel_energy :
  total_energy two_bonds_kernel three_particles
  = 17 * (1 - 0.5) ^ 2 + 17 * (1 - 0.5) ^ 2.
Proof.
  unfold total_energy, bond_energy, pair_energy. simpl.
  rewrite distance_three_particles_01, distance_three_particles_02. ring.
Qed.

(** The two pair contributions at the origin particle cancel. *)
Lemma two_bonds_kernel_force_0 :
  total_force two_bonds_kernel three_particles 0 = mkVec3 0 0 0.
Proof.
  unfold total_force, bond_force, pair_force. simpl.
  rewrite distance_three_particles_01, distance_three_particles_02.
  unfold vadd, vscale, vsub, vzero. simpl. f_equal; lra.
Qed.

Lemma chain_kernel_compiled : compiled 10 chain_kernel.
Proof.
  apply (compiled_initialize 10
           (mkContForce [BondInfo.mk [0; 1; 2; 3; 4; 5; 6; 7; 8; 9]%Z 10 1.0 17])).
  reflexivity.
Qed.

Lemma chain_unit_spacing (p : Z) :
  (0 <= p < 8)%Z -> distance chain_positions p (p + 1) = 1.
Proof.
  intros Hp.
  assert (Hcases : (p = 0 \/ p = 1 \/ p = 2 \/ p = 3
                    \/ p = 4 \/ p = 5 \/ p = 6 \/ p = 7)%Z) by lia.
  unfold distance, vnorm, vdot, vsub.
  repeat destruct Hcases as [->|Hcases]; try subst p; simpl;
    (replace (_ + _) with 1 by lra); apply sqrt_1.
Qed.

Lemma chain_last_spacing : distance chain_positions 8 9 <> 0.
Proof.
  unfold distance, vnorm, vdot, vsub. simpl.
  apply Rgt_not_eq, sqrt_lt_R0. lra.
Qed.

(** Replaces the distance of each of the first eight pairs by 1. *)
Ltac unit_spacing :=
  repeat match goal with
         | |- context [distance chain_positions ?a ?b] =>
             lazymatch a with
             | 8%Z => fail
             | _ => replace (distance chain_positions a b) with 1
                      by (symmetry; apply (chain_unit_spacing a); lia)
             end
         end.

Lemma chain_nondegenerate : nondegenerate chain_kernel chain_positions.
Proof.
  intros b i Hb Hi. simpl in Hb. destruct b as [|b]; [|lia]. simpl in Hi.
  do 9 (destruct i as [|i];
        [simpl; first [apply chain_last_spacing | unit_spacing; lra]|]).
  lia.
Qed.

(** Only the last pair of the chain contributes. *)
Lemma chain_energy :
  total_energy chain_kernel chain_positions
  = 17 * (distance chain_positions 8 9 - 1.0) * (distance chain_positions 8 9 - 1.0).
Proof.
  unfold total_energy, bond_energy, pair_energy. simpl.
  unit_spacing. lra.
Qed.

(** [testForce]: the energy of the context is the expected energy. *)
Lemma testForce_energy : exists e, testForce = Ok (e, e).
Proof.
  destruct (execute_ok 10 _ _ (compiled_wf _ _ chain_kernel_compiled) chain_nondegenerate)
    as (F & Hrun & _).
  rewrite chain_energy in Hrun.
  unfold chain_kernel, chain_positions in Hrun.
  unfold testForce, getState.
  with_strategy opaque [execute] simpl.
  unfold topology_of, parameters_of.
  with_strategy opaque [execute] simpl.
  rewrite Hrun. simpl.
  eexists. reflexivity.
Qed.

(** C1: for a compiled context and positions for its particles, the
    energy that evaluation returns is the sum, over every bond and every
    consecutive pair of its chain, of [k * (distance - L)^2]: evaluation
    returns it whenever no pair has zero separation, and returns nothing
    else; a bond whose count is 1 adds nothing to the sum and leaves the
    accumulators of the evaluation as they were. *)
Theorem energy_is_sum_over_bonds_and_pairs
    (n : Z) (ker : RestraintKernel) (pos : list Vec3) :
  compiled n ker ->
  length pos = Z.to_nat n ->
  (nondegenerate ker pos ->
     exists F, execute ker pos = Ok (total_energy ker pos, F))
  /\ (forall E F, execute ker pos = Ok (E, F) -> E = total_energy ker pos)
  /\ (forall b : nat,
        snd (topology ker !!! b) = 1%Z ->
        bond_energy ker pos b = 0
        /\ forall acc,
             bond_step pos (topology ker !!! b) (parameters ker !!! b) acc
             = (Ok tt, acc)).
Proof.
  intros Hc%compiled_wf _. split; [|split].
  - intros Hnd. destruct (execute_ok n ker pos Hc Hnd) as (F & Hrun & _).
    exists F. exact Hrun.
  - apply execute_returns.
  - intros b Hone. split.
    + unfold bond_energy. rewrite Hone. reflexivity.
    + intros acc. destruct (topology ker !!! b) as [p count].
      cbn [snd] in Hone. subst count. apply bond_step_single.
Qed.

Lemma energy_is_sum_over_bonds_and_pairs_witness :
  exists F,
    execute (one_bond_kernel 0.5 1.5) two_particles
    = Ok (total_energy (one_bond_kernel 0.5 1.5) two_particles, F).
Proof.
  apply (proj1 (energy_is_sum_over_bonds_and_pairs 2
                  (one_bond_kernel 0.5 1.5) two_particles
                  (one_bond_kernel_compiled 0.5 1.5) eq_refl)).
  apply one_bond_kernel_nondegenerate.
Defined.

(** C2: in the scenario of [testChangingParameters] (one bond over two
    particles at (1,0,0) and (2,0,0), length 0.5 and k 1.5) the energy is
    [1.5 * (1.0 - 0.5)^2]; after [setBondParameters(0, idxs, 2, 0.9, 2.2)]
    and [updateParametersInContext] on the same context it is
    [2.2 * (1.0 - 0.9)^2]. *)
Theorem energy_follows_parameter_update :
  testChangingParameters = Ok (1.5 * (1.0 - 0.5) ^ 2, 2.2 * (1.0 - 0.9) ^ 2).
Proof.
  destruct (one_bond_kernel_execute 0.5 1.5) as (F1 & H1).
  destruct (one_bond_kernel_execute 0.9 2.2) as (F2 & H2).
  unfold one_bond_kernel, two_particles in H1, H2.
  unfold testChangingParameters, getPotentialEnergy, getState.
  with_strategy opaque [execute] simpl.
  unfold topology_of, parameters_of, BondInfo.set_k, BondInfo.set_length,
    BondInfo.set_npart, BondInfo.set_idxs.
  with_strategy opaque [execute] simpl.
  rewrite H1. with_strategy opaque [execute] simpl.
  rewrite H2. simpl.
  unfold mret, result_ret. do 2 f_equal; lra.
Qed.

(** C3: the force that evaluation returns for a particle is the sum of
    the contributions of all pairs of all bonds that involve it; in the
    scenario of [testMultipleBonds] (origin particle bonded to (-1,0,0)
    and to (1,0,0), both bonds with length 0.5 and k 17) the force on the
    origin particle is zero on every axis. *)
Theorem forces_accumulate_additively :
  (forall (n : Z) (ker : RestraintKernel) (pos : list Vec3) E F,
     compiled n ker ->
     length pos = Z.to_nat n ->
     execute ker pos = Ok (E, F) ->
     forall j : Z, (0 <= j < n)%Z ->
       F !!! Z.to_nat j = total_force ker pos j)
  /\ testMultipleBonds
     = Ok (17 * (1 - 0.5) ^ 2 + 17 * (1 - 0.5) ^ 2, mkVec3 0 0 0).
Proof.
  split.
  - intros n ker pos E F Hc%compiled_wf Hlen Hrun j Hj.
    pose proof (execute_returns_nondegenerate _ _ _ _ Hrun) as Hnd.
    destruct (execute_ok n ker pos Hc Hnd) as (F' & Hrun' & _ & Hforce).
    rewrite Hrun in Hrun'. injection Hrun' as _ <-.
    rewrite Hforce by lia. f_equal. lia.
  - destruct (execute_ok 3 _ _ (compiled_wf _ _ two_bonds_kernel_compiled)
                two_bonds_kernel_nondegenerate) as (F & Hrun & _ & Hforce).
    specialize (Hforce 0%nat ltac:(simpl; lia)).
    rewrite two_bonds_kernel_energy in Hrun.
    change (Z.of_nat 0) with 0%Z in Hforce.
    rewrite two_bonds_kernel_force_0 in Hforce.
    unfold two_bonds_kernel, three_particles in Hrun.
    unfold testMultipleBonds, getState.
    with_strategy opaque [execute] simpl.
    unfold topology_of, parameters_of.
    with_strategy opaque [execute] simpl.
    rewrite Hrun. simpl. rewrite Hforce. reflexivity.
Qed.

Lemma forces_accumulate_additively_witness :
  exists E F,
    execute two_bonds_kernel three_particles = Ok (E, F)
    /\ F !!! Z.to_nat 0 = total_force two_bonds_kernel three_particles 0.
Proof.
  destruct (execute_ok 3 _ _ (compiled_wf _ _ two_bonds_kernel_compiled)
              two_bonds_kernel_nondegenerate) as (F & Hrun & _).
  exists (total_energy two_bonds_kernel three_particles), F.
  split; [exact Hrun|].
  apply (proj1 forces_accumulate_additively 3%Z two_bonds_kernel three_particles
           _ F two_bonds_kernel_compiled eq_refl Hrun).
  lia.
Defined.

(** C8: when the number of bonds of the force differs from the number of
    bonds in the topology snapshot of the context,
    [updateParametersInContext] throws the structural-change exception
    (and the context stays as it was). *)
Theorem update_with_changed_bond_count_throws (f : ContForce) (ctx : Context) :
  length (bonds f) <> length (topology (impl ctx)) ->
  updateParametersInContext f ctx = (Throw StructuralChange, ctx).
Proof.
  intros Hne. unfold updateParametersInContext, copyParametersToContext.
  destruct (Nat.eqb_spec (length (bonds f)) (length (topology (impl ctx))))
    as [E|_]; [contradiction|].
  destruct ctx. reflexivity.
Qed.

Lemma update_with_changed_bond_count_throws_witness :
  updateParametersInContext
    (mkContForce [BondInfo.mk [0; 1]%Z 2 0.5 1.5; BondInfo.mk [0; 1]%Z 2 0.9 2.2])
    (mkContext 2 (one_bond_kernel 0.5 1.5) two_particles)
  = (Throw StructuralChange, mkContext 2 (one_bond_kernel 0.5 1.5) two_particles).
Proof.
  apply (update_with_changed_bond_count_throws
           (mkContForce [BondInfo.mk [0; 1]%Z 2 0.5 1.5; BondInfo.mk [0; 1]%Z 2 0.9 2.2])
           (mkContext 2 (one_bond_kernel 0.5 1.5) two_particles)).
  simpl. lia.
Defined.

End Kernel.

(** * How the operations on the bond table compose *)

Section TableOperations.

#[local] Open Scope Z_scope.

Lemma int_size_small {A} (v : list A) :
  Z.of_nat (length v) <= INT_MAX -> int_size v = Z.of_nat (length v).
Proof. intros H. unfold int_size. apply to_int_small. lia. Qed.

Lemma int_size_insert (l : list BondInfo.t) (i : nat) (b : BondInfo.t) :
  int_size (<[i := b]> l) = int_size l.
Proof. unfold int_size. rewrite length_insert. reflexivity. Qed.

(** The two outcomes of [setBondParameters]. *)
Lemma setBondParameters_cases (f : ContForce) (i : Z) (P : list Z) (n : Z) (L k : R) :
  (0 <= i < getNumBonds f
   /\ setBondParameters i P n L k f
      = (Ok tt, mkContForce (<[Z.to_nat i := BondInfo.mk P n L k]> (bonds f))))
  \/ ((i < 0 \/ getNumBonds f <= i)
      /\ setBondParameters i P n L k f = (Throw IndexOutOfRange, f)).
Proof.
  destruct (ASSERT_VALID_INDEX_cases i (bonds f)) as [[Hi _]|[Hi _]].
  - left. split; [exact Hi | apply setBondParameters_ok; exact Hi].
  - right. split; [exact Hi | apply setBondParameters_throw; exact Hi].
Qed.

Lemma record_eta (b : BondInfo.t) :
  BondInfo.mk (BondInfo.idxs b) (BondInfo.npart b) (BondInfo.length b) (BondInfo.k b) = b.
Proof. destruct b. reflexivity. Qed.

Lemma lookup_map {A B} (g : A -> B) (l : list A) (i : nat) :
  map g l !! i = g <$> (l !! i).
Proof. revert i. induction l as [|a l IH]; intros [|i]; cbn; auto. Qed.

(** The table after a sequence of [addBond] calls, whatever its size. *)
Lemma addBonds_state (calls : list (list Z * Z * R * R)) (f : ContForce) :
  bonds (snd (addBonds calls f)) = bonds f ++ map bond_of_call calls.
Proof.
  revert f. induction calls as [|[[[P n] L] k] rest IH]; intros f.
  - cbn. rewrite app_nil_r. reflexivity.
  - cbn [addBonds]. unfold mbind at 1, method_bind at 1.
    rewrite addBond_eq.
    specialize (IH (mkContForce (bonds f ++ [BondInfo.mk P n L k]))).
    unfold mbind, method_bind.
    destruct (addBonds rest _) as [[js|e] f2];
      unfold mret, method_ret; cbn [snd bonds map] in *;
      rewrite IH, <- app_assoc; reflexivity.
Qed.

(** X1: [addBond] returns the number of bonds there were before the call;
    on a table with room for one more entry, [getBondParameters] at the
    returned index yields exactly the values added, and [getNumBonds()]
    has grown by one. *)
Theorem addBond_then_get (f : ContForce) (P : list Z) (n : Z) (L k : R) :
  Z.of_nat (length (bonds f)) < INT_MAX ->
  exists f',
    addBond P n L k f = (Ok (getNumBonds f), f')
    /\ getBondParameters (getNumBonds f) f' = Ok (P, n, L, k)
    /\ getNumBonds f' = getNumBonds f + 1.
Proof.
  intros Hroom. eexists. split; [apply addBond_eq|].
  assert (Hold : getNumBonds f = Z.of_nat (length (bonds f))).
  { apply int_size_small. lia. }
  assert (Hnew : getNumBonds (mkContForce (bonds f ++ [BondInfo.mk P n L k]))
                 = Z.of_nat (length (bonds f)) + 1).
  { unfold getNumBonds. rewrite int_size_small; cbn [bonds]; rewrite length_app;
      cbn [length]; lia. }
  split; [|lia].
  rewrite getBondParameters_ok by lia.
  cbn [bonds]. unfold at_index.
  rewrite list_lookup_total_middle by lia. reflexivity.
Qed.

Lemma addBond_then_get_witness :
  exists f',
    addBond [4; 5; 6] 3 1%R 17%R (mkContForce [BondInfo.mk [0; 1] 2 0.5%R 1.5%R])
    = (Ok 1, f')
    /\ getBondParameters 1 f' = Ok ([4; 5; 6], 3, 1%R, 17%R)
    /\ getNumBonds f' = 2.
Proof.
  apply (addBond_then_get (mkContForce [BondInfo.mk [0; 1] 2 0.5%R 1.5%R])).
  vm_compute. reflexivity.
Defined.

(** X2: [addBond] leaves the entries that are already in the table where
    they are; on a table with room for one more entry every index that
    was valid before the call still reads the same values. *)
Theorem addBond_keeps_existing_bonds
    (f : ContForce) (P : list Z) (n : Z) (L k : R) :
  let f' := snd (addBond P n L k f) in
  (forall j : nat, (j < length (bonds f))%nat -> bonds f' !! j = bonds f !! j)
  /\ (Z.of_nat (length (bonds f)) < INT_MAX ->
      forall j : Z, 0 <= j < getNumBonds f ->
        getBondParameters j f' = getBondParameters j f).
Proof.
  rewrite addBond_eq. cbn [snd]. split.
  - intros j Hj. cbn [bonds]. apply lookup_app_l. exact Hj.
  - intros Hroom j Hj.
    pose proof (valid_index_lt j (bonds f) Hj) as Hlt.
    rewrite (getBondParameters_ok f) by exact Hj.
    rewrite getBondParameters_ok.
    + cbn [bonds]. unfold at_index.
      rewrite lookup_total_app_l by exact Hlt. reflexivity.
    + unfold getNumBonds in *. cbn [bonds].
      rewrite int_size_small in * by (try rewrite length_app; cbn [length]; lia).
      rewrite length_app. cbn [length]. lia.
Qed.

Lemma addBond_keeps_existing_bonds_witness :
  getBondParameters 0
    (snd (addBond [4; 5; 6] 3 1%R 17%R (mkContForce [BondInfo.mk [0; 1] 2 0.5%R 1.5%R])))
  = getBondParameters 0 (mkContForce [BondInfo.mk [0; 1] 2 0.5%R 1.5%R]).
Proof.
  apply (proj2 (addBond_keeps_existing_bonds
                  (mkContForce [BondInfo.mk [0; 1] 2 0.5%R 1.5%R])
                  [4; 5; 6] 3 1%R 17%R)).
  - vm_compute. reflexivity.
  - vm_compute. split; [discriminate | reflexivity].
Defined.

(** X3: after a sequence of [addBond] calls on a new [ContForce] (a number
    of calls that an [int] can hold), [getBondParameters] at index [i]
    yields the arguments of call number [i]. *)
Theorem addBond_sequence_is_the_table
    (calls : list (list Z * Z * R * R)) (i : nat) (c : list Z * Z * R * R) :
  Z.of_nat (length calls) <= INT_MAX ->
  calls !! i = Some c ->
  getBondParameters (Z.of_nat i) (snd (addBonds calls new_ContForce)) = Ok c.
Proof.
  intros Hn Hc.
  pose proof (addBonds_state calls new_ContForce) as Hst.
  cbn [new_ContForce bonds app] in Hst.
  pose proof (lookup_lt_Some _ _ _ Hc) as Hlt.
  rewrite getBondParameters_ok.
  - unfold at_index. rewrite Hst, Nat2Z.id.
    rewrite (list_lookup_total_correct _ _ (bond_of_call c))
      by (rewrite lookup_map, Hc; reflexivity).
    destruct c as [[[P n] L] k]. reflexivity.
  - unfold getNumBonds. rewrite Hst.
    rewrite int_size_small; rewrite length_map; lia.
Qed.

Lemma addBond_sequence_is_the_table_witness :
  getBondParameters (Z.of_nat 1)
    (snd (addBonds [([0; 1], 2, 0.5%R, 1.5%R); ([1; 2; 3], 3, 1%R, 17%R)] new_ContForce))
  = Ok ([1; 2; 3], 3, 1%R, 17%R).
Proof.
  apply (addBond_sequence_is_the_table
           [([0; 1], 2, 0.5%R, 1.5%R); ([1; 2; 3], 3, 1%R, 17%R)] 1).
  - vm_compute. discriminate.
  - reflexivity.
Defined.

(** X4: [getBondParameters] followed by [setBondParameters] with the
    values read, at the same index, succeeds and leaves the object exactly
    as it was. *)
Theorem get_then_set_is_identity
    (f : ContForce) (i : Z) (P : list Z) (n : Z) (L k : R) :
  getBondParameters i f = Ok (P, n, L, k) ->
  setBondParameters i P n L k f = (Ok tt, f).
Proof.
  intros Hget.
  destruct (ASSERT_VALID_INDEX_cases i (bonds f)) as [[Hi _]|[_ Hth]].
  - rewrite getBondParameters_ok in Hget by exact Hi.
    injection Hget as <- <- <- <-.
    rewrite setBondParameters_ok by exact Hi.
    rewrite record_eta.
    rewrite list_insert_id
      by (apply list_lookup_lookup_total_lt, valid_index_lt, Hi).
    destruct f. reflexivity.
  - unfold getBondParameters in Hget. rewrite Hth in Hget. discriminate.
Qed.

Lemma get_then_set_is_identity_witness :
  setBondParameters 1 [2; 3] 2 1%R 17%R
    (mkContForce [BondInfo.mk [0; 1] 2 0.5%R 1.5%R; BondInfo.mk [2; 3] 2 1%R 17%R])
  = (Ok tt,
     mkContForce [BondInfo.mk [0; 1] 2 0.5%R 1.5%R; BondInfo.mk [2; 3] 2 1%R 17%R]).
Proof.
  apply (get_then_set_is_identity
           (mkContForce [BondInfo.mk [0; 1] 2 0.5%R 1.5%R; BondInfo.mk [2; 3] 2 1%R 17%R])).
  reflexivity.
Defined.

(** X5: of two [setBondParameters] calls at the same index the second
    one decides: the outcome and the object are those of the second call
    alone, for a valid index as for an invalid one. *)
Theorem second_set_overwrites_first
    (f : ContForce) (i : Z)
    (P1 : list Z) (n1 : Z) (L1 k1 : R) (P2 : list Z) (n2 : Z) (L2 k2 : R) :
  setBondParameters i P2 n2 L2 k2 (snd (setBondParameters i P1 n1 L1 k1 f))
  = setBondParameters i P2 n2 L2 k2 f.
Proof.
  destruct (setBondParameters_cases f i P1 n1 L1 k1) as [[Hi ->]|[_ ->]];
    cbn [snd]; [|reflexivity].
  rewrite (setBondParameters_ok f) by exact Hi.
  rewrite setBondParameters_ok
    by (unfold getNumBonds in *; cbn [bonds]; rewrite int_size_insert; exact Hi).
  cbn [bonds]. rewrite list_insert_insert_eq. reflexivity.
Qed.

(** X6: [setBondParameters] calls at two different indices commute: the
    object after both calls does not depend on their order. *)
Theorem sets_at_different_indices_commute
    (f : ContForce) (i j : Z)
    (P1 : list Z) (n1 : Z) (L1 k1 : R) (P2 : list Z) (n2 : Z) (L2 k2 : R) :
  i <> j ->
  snd (setBondParameters j P2 n2 L2 k2 (snd (setBondParameters i P1 n1 L1 k1 f)))
  = snd (setBondParameters i P1 n1 L1 k1 (snd (setBondParameters j P2 n2 L2 k2 f))).
Proof.
  intros Hij.
  destruct (setBondParameters_cases f i P1 n1 L1 k1) as [[Hi Ei]|[Hi Ei]];
    destruct (setBondParameters_cases f j P2 n2 L2 k2) as [[Hj Ej]|[Hj Ej]];
    rewrite Ei, Ej; cbn [snd].
  - rewrite !setBondParameters_ok
      by (unfold getNumBonds in *; cbn [bonds]; rewrite int_size_insert; assumption).
    cbn [snd bonds]. f_equal. apply list_insert_insert_ne. lia.
  - rewrite Ei. cbn [snd].
    rewrite setBondParameters_throw
      by (unfold getNumBonds in *; cbn [bonds]; rewrite int_size_insert; exact Hj).
    reflexivity.
  - rewrite Ej. cbn [snd].
    rewrite setBondParameters_throw
      by (unfold getNumBonds in *; cbn [bonds]; rewrite int_size_insert; exact Hi).
    reflexivity.
  - rewrite Ei, Ej. reflexivity.
Qed.

Lemma sets_at_different_indices_commute_witness :
  snd (setBondParameters 1 [7] 1 2%R 3%R
         (snd (setBondParameters 0 [5; 6] 2 0.9%R 2.2%R
                 (mkContForce [BondInfo.mk [0; 1] 2 0.5%R 1.5%R;
                               BondInfo.mk [2; 3] 2 1%R 17%R]))))
  = snd (setBondParameters 0 [5; 6] 2 0.9%R 2.2%R
           (snd (setBondParameters 1 [7] 1 2%R 3%R
                   (mkContForce [BondInfo.mk [0; 1] 2 0.5%R 1.5%R;
                                 BondInfo.mk [2; 3] 2 1%R 17%R])))).
Proof.
  apply (sets_at_different_indices_commute
           (mkContForce [BondInfo.mk [0; 1] 2 0.5%R 1.5%R; BondInfo.mk [2; 3] 2 1%R 17%R])
           0 1).
  lia.
Defined.

(** X7: [getBondParameters] and [setBondParameters] accept the same
    indices: one succeeds at an index exactly when the other does, and
    the only exception either of them throws is the out-of-range one. *)
Theorem get_and_set_accept_the_same_indices
    (f : ContForce) (i : Z) (P : list Z) (n : Z) (L k : R) :
  ((exists v, getBondParameters i f = Ok v)
   <-> fst (setBondParameters i P n L k f) = Ok tt)
  /\ (forall e, getBondParameters i f = Throw e -> e = IndexOutOfRange)
  /\ (forall e, fst (setBondParameters i P n L k f) = Throw e -> e = IndexOutOfRange).
Proof.
  unfold getBondParameters.
  destruct (setBondParameters_cases f i P n L k) as [[Hi ->]|[Hi ->]]; cbn [fst].
  - rewrite ASSERT_VALID_INDEX_ok by exact Hi.
    split; [|split]; [|discriminate|discriminate].
    split; [reflexivity | intros _; eexists; reflexivity].
  - rewrite ASSERT_VALID_INDEX_throw by exact Hi.
    split; [|split]; [|congruence|congruence].
    split; [intros [v Hv]; discriminate | discriminate].
Qed.

(** X8: overwriting a bond right after adding it, at the index that
    [addBond] returned, gives the object that adding the new values in the
    first place would have given (on a table with room for one more
    entry). *)
Theorem set_after_add_is_add
    (f : ContForce)
    (P1 : list Z) (n1 : Z) (L1 k1 : R) (P2 : list Z) (n2 : Z) (L2 k2 : R) :
  Z.of_nat (length (bonds f)) < INT_MAX ->
  setBondParameters (getNumBonds f) P2 n2 L2 k2 (snd (addBond P1 n1 L1 k1 f))
  = (Ok tt, snd (addBond P2 n2 L2 k2 f)).
Proof.
  intros Hroom. rewrite !addBond_eq. cbn [snd].
  assert (Hold : getNumBonds f = Z.of_nat (length (bonds f))).
  { apply int_size_small. lia. }
  rewrite setBondParameters_ok.
  - cbn [bonds]. rewrite Hold, Nat2Z.id.
    rewrite insert_app_r_alt by lia.
    rewrite Nat.sub_diag. reflexivity.
  - unfold getNumBonds in *. cbn [bonds].
    rewrite (int_size_small (_ ++ _)); rewrite length_app; cbn [length]; lia.
Qed.

Lemma set_after_add_is_add_witness :
  setBondParameters (getNumBonds (mkContForce [BondInfo.mk [0; 1] 2 0.5%R 1.5%R]))
    [7; 8] 2 2%R 3%R
    (snd (addBond [4; 5; 6] 3 1%R 17%R (mkContForce [BondInfo.mk [0; 1] 2 0.5%R 1.5%R])))
  = (Ok tt,
     snd (addBond [7; 8] 2 2%R 3%R (mkContForce [BondInfo.mk [0; 1] 2 0.5%R 1.5%R]))).
Proof.
  apply (set_after_add_is_add (mkContForce [BondInfo.mk [0; 1] 2 0.5%R 1.5%R])).
  vm_compute. reflexivity.
Defined.

(** X9: [setBondParameters] at a valid index and [addBond] commute (on a
    table with room for one more entry): the object is the same in either
    order, and [addBond] returns the same index. *)
Theorem set_and_add_commute
    (f : ContForce) (i : Z)
    (P1 : list Z) (n1 : Z) (L1 k1 : R) (P2 : list Z) (n2 : Z) (L2 k2 : R) :
  Z.of_nat (length (bonds f)) < INT_MAX ->
  0 <= i < getNumBonds f ->
  addBond P2 n2 L2 k2 (snd (setBondParameters i P1 n1 L1 k1 f))
  = (fst (addBond P2 n2 L2 k2 f),
     snd (setBondParameters i P1 n1 L1 k1 (snd (addBond P2 n2 L2 k2 f)))).
Proof.
  intros Hroom Hi.
  pose proof (valid_index_lt i (bonds f) Hi) as Hlt.
  rewrite (setBondParameters_ok f) by exact Hi. cbn [snd].
  rewrite !addBond_eq. cbn [fst snd bonds].
  rewrite setBondParameters_ok.
  - cbn [snd bonds]. rewrite length_insert.
    rewrite insert_app_l by exact Hlt. reflexivity.
  - unfold getNumBonds in *. cbn [bonds].
    rewrite int_size_small in * by (try rewrite length_app; cbn [length]; lia).
    rewrite length_app. cbn [length]. lia.
Qed.

Lemma set_and_add_commute_witness :
  addBond [7; 8] 2 2%R 3%R
    (snd (setBondParameters 0 [5; 6] 2 0.9%R 2.2%R
            (mkContForce [BondInfo.mk [0; 1] 2 0.5%R 1.5%R])))
  = (fst (addBond [7; 8] 2 2%R 3%R (mkContForce [BondInfo.mk [0; 1] 2 0.5%R 1.5%R])),
     snd (setBondParameters 0 [5; 6] 2 0.9%R 2.2%R
            (snd (addBond [7; 8] 2 2%R 3%R
                    (mkContForce [BondInfo.mk [0; 1] 2 0.5%R 1.5%R]))))).
Proof.
  apply (set_and_add_commute (mkContForce [BondInfo.mk [0; 1] 2 0.5%R 1.5%R]) 0).
  - vm_compute. reflexivity.
  - vm_compute. split; [discriminate | reflexivity].
Defined.

(** ** Sequences of calls *)

Lemma after_call_length (f : ContForce) (op : table_call) :
  length (bonds (after_call f op))
  = (length (bonds f) + count_adds [op])%nat.
Proof.
  destruct op as [P n L k|i P n L k]; cbn [after_call count_adds].
  - rewrite addBond_eq. cbn [snd bonds]. rewrite length_app. cbn [length]. lia.
  - destruct (setBondParameters_cases f i P n L k) as [[_ ->]|[_ ->]];
      cbn [snd bonds]; [rewrite length_insert|]; lia.
Qed.

Lemma after_calls_length (ops : list table_call) (f : ContForce) :
  length (bonds (after_calls ops f)) = (length (bonds f) + count_adds ops)%nat.
Proof.
  revert f. induction ops as [|op ops IH]; intros f.
  - cbn. lia.
  - unfold after_calls in *. cbn [fold_left]. rewrite IH, after_call_length.
    destruct op; cbn [count_adds]; lia.
Qed.

(** Entries below the size of the table that no call writes stay put. *)
Lemma after_calls_lookup (ops : list table_call) (f : ContForce) (j : Z) :
  0 <= j ->
  (Z.to_nat j < length (bonds f))%nat ->
  Forall (fun op => ~ writes_index j op) ops ->
  bonds (after_calls ops f) !! Z.to_nat j = bonds f !! Z.to_nat j.
Proof.
  intros Hj. revert f. induction ops as [|op ops IH]; intros f Hlt Hops.
  - reflexivity.
  - apply Forall_cons in Hops as [Hop Hops].
    unfold after_calls in *. cbn [fold_left].
    rewrite IH; [| rewrite after_call_length; lia | exact Hops].
    destruct op as [P n L k|i P n L k]; cbn [after_call writes_index] in *.
    + rewrite addBond_eq. cbn [snd bonds]. apply lookup_app_l. exact Hlt.
    + destruct (setBondParameters_cases f i P n L k) as [[Hi ->]|[_ ->]];
        cbn [snd bonds]; [|reflexivity].
      apply list_lookup_insert_ne. lia.
Qed.

(** X12: after any sequence of [addBond] and [setBondParameters] calls,
    whether they return or throw, [getNumBonds()] has grown by the number
    of [addBond] calls (as long as an [int] can hold it): nothing removes
    a bond, and [setBondParameters] never adds one. *)
Theorem getNumBonds_counts_addBond_calls (ops : list table_call) (f : ContForce) :
  Z.of_nat (length (bonds f)) + Z.of_nat (count_adds ops) <= INT_MAX ->
  getNumBonds (after_calls ops f) = getNumBonds f + Z.of_nat (count_adds ops).
Proof.
  intros Hroom. unfold getNumBonds.
  rewrite !int_size_small; rewrite ?after_calls_length; lia.
Qed.

Lemma getNumBonds_counts_addBond_calls_witness :
  getNumBonds
    (after_calls [CallAddBond [0; 1] 2 0.5%R 1.5%R;
                  CallSetBondParameters 0 [0; 1] 2 0.9%R 2.2%R;
                  CallSetBondParameters 5 [0; 1] 2 0.9%R 2.2%R;
                  CallAddBond [1; 2] 2 1%R 17%R]
       new_ContForce)
  = getNumBonds new_ContForce + Z.of_nat 2.
Proof.
  apply (getNumBonds_counts_addBond_calls
           [CallAddBond [0; 1] 2 0.5%R 1.5%R;
            CallSetBondParameters 0 [0; 1] 2 0.9%R 2.2%R;
            CallSetBondParameters 5 [0; 1] 2 0.9%R 2.2%R;
            CallAddBond [1; 2] 2 1%R 17%R]
           new_ContForce).
  vm_compute. discriminate.
Defined.

(** X13: bond indices are stable.  Through any sequence of [addBond] and
    [setBondParameters] calls (with a final size that an [int] can hold),
    an index that was valid stays valid, and if no [setBondParameters] of
    the sequence was made at that index it still reads the same values. *)
Theorem bond_indices_are_stable (ops : list table_call) (f : ContForce) (j : Z) :
  Z.of_nat (length (bonds f)) + Z.of_nat (count_adds ops) <= INT_MAX ->
  0 <= j < getNumBonds f ->
  (exists v, getBondParameters j (after_calls ops f) = Ok v)
  /\ (Forall (fun op => ~ writes_index j op) ops ->
      getBondParameters j (after_calls ops f) = getBondParameters j f).
Proof.
  intros Hroom Hj.
  pose proof (valid_index_lt j (bonds f) Hj) as Hlt.
  assert (Hj' : 0 <= j < getNumBonds (after_calls ops f)).
  { unfold getNumBonds in *.
    rewrite int_size_small in * by (rewrite ?after_calls_length; lia).
    rewrite after_calls_length. lia. }
  split.
  - rewrite getBondParameters_ok by exact Hj'. eexists. reflexivity.
  - intros Hops.
    rewrite !getBondParameters_ok by assumption.
    unfold at_index. rewrite !list_lookup_total_alt.
    rewrite after_calls_lookup by (first [lia | assumption]). reflexivity.
Qed.

Lemma bond_indices_are_stable_witness :
  getBondParameters 0
    (after_calls [CallAddBond [1; 2] 2 1%R 17%R;
                  CallSetBondParameters 1 [3; 4] 2 0.9%R 2.2%R]
       (mkContForce [BondInfo.mk [0; 1] 2 0.5%R 1.5%R]))
  = getBondParameters 0 (mkContForce [BondInfo.mk [0; 1] 2 0.5%R 1.5%R]).
Proof.
  apply (proj2 (bond_indices_are_stable
                  [CallAddBond [1; 2] 2 1%R 17%R;
                   CallSetBondParameters 1 [3; 4] 2 0.9%R 2.2%R]
                  (mkContForce [BondInfo.mk [0; 1] 2 0.5%R 1.5%R]) 0
                  ltac:(vm_compute; discriminate)
                  ltac:(vm_compute; split; [discriminate | reflexivity]))).
  repeat constructor; cbn; lia.
Defined.

Lemma get_and_set_accept_the_same_indices_witness :
  fst (setBondParameters 0 [5; 6] 2 0.9%R 2.2%R
         (mkContForce [BondInfo.mk [0; 1] 2 0.5%R 1.5%R]))
  = Ok tt.
Proof.
  apply (proj1 (proj1 (get_and_set_accept_the_same_indices
                         (mkContForce [BondInfo.mk [0; 1] 2 0.5%R 1.5%R])
                         0 [5; 6] 2 0.9%R 2.2%R))).
  eexists. reflexivity.
Defined.

End TableOperations.

(** * Parameter updates and re-creation of the context *)

Section ContextUpdate.

#[local] Open Scope Z_scope.

Lemma valid_bond_topology (n : Z) (a b : BondInfo.t) :
  topology_of a = topology_of b -> valid_bond n a = valid_bond n b.
Proof.
  unfold topology_of, valid_bond. intros [= -> ->]. reflexivity.
Qed.

Lemma forallb_valid_bond_topology (n : Z) (l1 l2 : list BondInfo.t) :
  map topology_of l1 = map topology_of l2 ->
  forallb (valid_bond n) l1 = forallb (valid_bond n) l2.
Proof.
  revert l2. induction l1 as [|a l1 IH]; intros [|b l2] Hmap;
    try discriminate; [reflexivity|].
  cbn [map] in Hmap.
  assert (Hhead : topology_of a = topology_of b) by congruence.
  assert (Htail : map topology_of l1 = map topology_of l2) by congruence.
  cbn [forallb]. rewrite (valid_bond_topology n a b Hhead), (IH l2 Htail).
  reflexivity.
Qed.

Lemma update_is_initialize (n : Z) (f0 f : ContForce) (ker : RestraintKernel) :
  initialize n f0 = Ok ker ->
  map topology_of (bonds f) = map topology_of (bonds f0) ->
  exists ker1,
    initialize n f = Ok ker1
    /\ copyParametersToContext f ker = (Ok tt, ker1).
Proof.
  unfold initialize. intros Hinit Htop.
  rewrite (forallb_valid_bond_topology n _ _ Htop).
  destruct (forallb (valid_bond n) (bonds f0)); [|discriminate].
  injection Hinit as <-. eexists. split; [reflexivity|].
  unfold copyParametersToContext. cbn [topology].
  rewrite <- Htop, length_map, Nat.eqb_refl. reflexivity.
Qed.

(** Changing only [length] and [k] of a bond keeps every particle list
    and count. *)
Lemma set_parameters_keeps_topology
    (f : ContForce) (i : Z) (P : list Z) (n : Z) (L0 k0 L k : R) :
  getBondParameters i f = Ok (P, n, L0, k0) ->
  map topology_of (bonds (snd (setBondParameters i P n L k f)))
  = map topology_of (bonds f).
Proof.
  intros Hget.
  destruct (ASSERT_VALID_INDEX_cases i (bonds f)) as [[Hi _]|[_ Hth]].
  - rewrite getBondParameters_ok in Hget by exact Hi.
    injection Hget as HP Hn _ _.
    rewrite setBondParameters_ok by exact Hi. cbn [snd bonds].
    pose proof (valid_index_lt i (bonds f) Hi) as Hlt.
    apply list_eq. intros j. rewrite !lookup_map.
    destruct (decide (j = Z.to_nat i)) as [->|Hne].
    + rewrite list_lookup_insert_eq by exact Hlt.
      rewrite (list_lookup_lookup_total_lt (bonds f) (Z.to_nat i) Hlt).
      cbn. unfold topology_of at 2. unfold at_index in HP, Hn.
      rewrite HP, Hn. reflexivity.
    + rewrite list_lookup_insert_ne by congruence. reflexivity.
  - unfold getBondParameters in Hget. rewrite Hth in Hget. discriminate.
Qed.

(** X10: when the force has the particle lists and counts it had when the
    context was created, [updateParametersInContext] succeeds and leaves
    the context exactly as creating it anew from the force, and setting
    the same positions, would. *)
Theorem update_equals_new_context
    (n : Z) (f0 f : ContForce) (ctx : Context) (pos : list Vec3) :
  createContext n f0 = Ok ctx ->
  map topology_of (bonds f) = map topology_of (bonds f0) ->
  exists ctx1,
    createContext n f = Ok ctx1
    /\ updateParametersInContext f (setPositions pos ctx)
       = (Ok tt, setPositions pos ctx1).
Proof.
  unfold createContext. intros Hctx Htop.
  destruct (initialize n f0) as [ker|e] eqn:Hinit; [|discriminate].
  injection Hctx as <-.
  destruct (update_is_initialize n f0 f ker Hinit Htop) as (ker1 & Hinit1 & Hcopy).
  rewrite Hinit1. eexists. split; [reflexivity|].
  unfold updateParametersInContext, setPositions. cbn [impl numParticles positions].
  rewrite Hcopy. reflexivity.
Qed.

Lemma update_equals_new_context_witness :
  exists ctx1,
    createContext 2 (mkContForce [BondInfo.mk [0; 1] 2 0.9%R 2.2%R]) = Ok ctx1
    /\ updateParametersInContext (mkContForce [BondInfo.mk [0; 1] 2 0.9%R 2.2%R])
         (setPositions two_particles
            (mkContext 2 (one_bond_kernel 0.5 1.5) [vzero; vzero]))
       = (Ok tt, setPositions two_particles ctx1).
Proof.
  apply (update_equals_new_context 2
           (mkContForce [BondInfo.mk [0; 1] 2 0.5%R 1.5%R])).
  - reflexivity.
  - reflexivity.
Defined.

(** X11: the documented use: after [setBondParameters] has changed only
    [length] and [k] of one bond of the force a context was created from,
    [updateParametersInContext] succeeds, and the context is the one that
    creating it anew from the changed force would give. *)
Theorem set_then_update_equals_new_context
    (n : Z) (f0 : ContForce) (ctx : Context) (pos : list Vec3)
    (i : Z) (P : list Z) (np : Z) (L0 k0 L k : R) :
  createContext n f0 = Ok ctx ->
  getBondParameters i f0 = Ok (P, np, L0, k0) ->
  exists f ctx1,
    setBondParameters i P np L k f0 = (Ok tt, f)
    /\ createContext n f = Ok ctx1
    /\ updateParametersInContext f (setPositions pos ctx)
       = (Ok tt, setPositions pos ctx1).
Proof.
  unfold createContext. intros Hctx Hget.
  destruct (initialize n f0) as [ker|e] eqn:Hinit; [|discriminate].
  injection Hctx as <-.
  pose proof (set_parameters_keeps_topology f0 i P np L0 k0 L k Hget) as Htop.
  destruct (setBondParameters_cases f0 i P np L k) as [[Hi Hset]|[Hi Hset]].
  - rewrite Hset in *. cbn [snd] in Htop.
    destruct (update_is_initialize n f0 _ ker Hinit Htop) as (ker1 & Hinit1 & Hcopy).
    eexists. eexists. split; [reflexivity|].
    rewrite Hinit1. split; [reflexivity|].
    unfold updateParametersInContext, setPositions. cbn [impl numParticles positions].
    rewrite Hcopy. reflexivity.
  - unfold getBondParameters in Hget.
    rewrite ASSERT_VALID_INDEX_throw in Hget by exact Hi. discriminate.
Qed.

Lemma set_then_update_equals_new_context_witness :
  exists f ctx1,
    setBondParameters 0 [0; 1] 2 0.9%R 2.2%R
      (mkContForce [BondInfo.mk [0; 1] 2 0.5%R 1.5%R]) = (Ok tt, f)
    /\ createContext 2 f = Ok ctx1
    /\ updateParametersInContext f
         (setPositions two_particles
            (mkContext 2 (one_bond_kernel 0.5 1.5) [vzero; vzero]))
       = (Ok tt, setPositions two_particles ctx1).
Proof.
  apply (set_then_update_equals_new_context 2
           (mkContForce [BondInfo.mk [0; 1] 2 0.5%R 1.5%R])
           (mkContext 2 (one_bond_kernel 0.5 1.5) [vzero; vzero])
           two_particles 0 [0; 1] 2 0.5%R 1.5%R).
  - reflexivity.
  - reflexivity.
Defined.

End ContextUpdate.
